(** * BLE advertising enhancements of the AirChainPay wallet

    A shallow embedding of
    [src/bluetooth/BLEAdvertisingEnhancements.ts]: the advertising
    configuration builder and validator, the per-session metrics
    tracker and the start / stop / restart controller, followed by the
    properties of the offline-transport specification that concern this
    class.

    Conventions of the embedding.
    - JavaScript numbers that the class handles are millisecond
      instants, counters and integral settings; they are integers [Z].
      The one quotient ([averageDuration]) is a [JsNumber], which keeps
      the IEEE outcomes of a division by zero apart from the finite
      ones.
    - Strings are [string]s read as UTF-8 byte sequences, the reading
      [Buffer.from(_, 'utf8')] gives them.
    - [Map<string, _>] is a [gmap string _].  The metrics map holds
      object references: its values are locations of a heap of
      [AdvertisingMetrics] objects, so that a copy of the map shares the
      records with the original.
    - Asynchronous methods run in a state-and-exception monad over the
      [World]; awaiting the driver yields what the promise settles to.
      Each method runs from its call to its return without another
      method of the instance in between.
    - Calls to the logger leave no mark on the [World]. *)

From Stdlib Require Import ZArith QArith Ascii String List Lia.
From stdpp Require Import base option strings gmap list.

Local Open Scope string_scope.
Local Open Scope Z_scope.

(** ** Regular expressions of the shape the class uses *)

Module RegExp.

(** A class atom [lo-hi] between brackets. *)
Inductive ClassAtom := ClassRange (lo hi : ascii).

Definition CharClass := list ClassAtom.

(** A term of a pattern: a bracketed class with a counted quantifier
    [{n}], or a literal character. *)
Inductive Term :=
| TClass (cls : CharClass) (n : nat)
| TChar (c : ascii).

(** The characters a class atom stands for. *)
Definition members (a : ClassAtom) : list ascii :=
  match a with
  | ClassRange lo hi =>
      map ascii_of_nat
          (seq (nat_of_ascii lo) (S (nat_of_ascii hi) - nat_of_ascii lo))
  end.

(** Canonicalize of the [i] flag without the [u] flag: the upper-case
    mapping, under which no character outside ASCII becomes an ASCII
    one. *)
Definition canonicalize (c : ascii) : ascii :=
  let n := nat_of_ascii c in
  if ((97 <=? n) && (n <=? 122))%nat then ascii_of_nat (n - 32) else c.

Definition char_eqb (ignoreCase : bool) (a c : ascii) : bool :=
  if ignoreCase then Ascii.eqb (canonicalize a) (canonicalize c)
  else Ascii.eqb a c.

Definition class_matches (ignoreCase : bool) (cls : CharClass) (c : ascii) : bool :=
  existsb (fun a => existsb (fun m => char_eqb ignoreCase m c) (members a)) cls.

(** [count_class i cls n s] consumes exactly [n] characters of the
    class and returns the rest of the input. *)
Fixpoint count_class (ignoreCase : bool) (cls : CharClass) (n : nat) (s : string)
  : option string :=
  match n with
  | O => Some s
  | S n' =>
      match s with
      | String c s' =>
          if class_matches ignoreCase cls c
          then count_class ignoreCase cls n' s' else None
      | EmptyString => None
      end
  end.

(** Matching a sequence of terms at the start of the input; every term
    here consumes a fixed number of characters, so there is nothing to
    backtrack over. *)
Fixpoint match_terms (ignoreCase : bool) (ts : list Term) (s : string)
  : option string :=
  match ts with
  | [] => Some s
  | TClass cls n :: ts' =>
      match count_class ignoreCase cls n s with
      | Some rest => match_terms ignoreCase ts' rest
      | None => None
      end
  | TChar c :: ts' =>
      match s with
      | String c' s' =>
          if char_eqb ignoreCase c c' then match_terms ignoreCase ts' s' else None
      | EmptyString => None
      end
  end.

(** [/^ ts $/.test(s)], with or without the [i] flag. *)
Definition test_anchored (ignoreCase : bool) (ts : list Term) (s : string) : bool :=
  match match_terms ignoreCase ts s with
  | Some EmptyString => true
  | _ => false
  end.

End RegExp.

(** ** Data model *)

(** [BLEPaymentPayload] is declared in [BluetoothManager.ts]; this class
    reads its wallet address and its timestamp and otherwise hands it to
    [JSON.stringify] whole.  The remaining fields are kept as the
    key/value pairs they serialise to. *)
Record BLEPaymentPayload := {
  walletAddress : string;
  timestamp : Z;
  paymentFields : list (string * string);
}.

Record AdvertisingConfig := {
  deviceName : string;
  serviceUUID : string;
  manufacturerData : list Z;
  txPowerLevel : Z;
  advertiseMode : Z;
  includeDeviceName : bool;
  includeTxPowerLevel : bool;
  connectable : bool;
  timeout : option Z;
  interval : option Z;
  payload : option BLEPaymentPayload;
}.

Record AdvertisingMetrics := {
  startTime : Z;
  stopTime : option Z;
  duration : Z;
  success : bool;
  errorCount : Z;
  restartCount : Z;
  payloadTransmitted : option bool;
}.

Record ValidationResult := {
  valid : bool;
  errors : list string;
}.

(** The encoding of the advertise modes on the platform the class
    targets (Android's [AdvertiseSettings]). *)
Definition ADVERTISE_MODE_LOW_POWER : Z := 0.
Definition ADVERTISE_MODE_BALANCED : Z := 1.
Definition ADVERTISE_MODE_LOW_LATENCY : Z := 2.

(** ** Truthiness *)

Definition truthy_string (s : string) : bool :=
  negb (String.eqb s "").

Definition truthy_number (n : Z) : bool :=
  negb (n =? 0).

Definition truthy_opt_number (n : option Z) : bool :=
  match n with
  | Some v => truthy_number v
  | None => false
  end.

Definition truthy_opt_bool (b : option bool) : bool :=
  match b with
  | Some v => v
  | None => false
  end.

(** ** Advertising configuration builder *)

(** [Buffer.from(s, 'utf8').toJSON().data]: the bytes of [s]. *)
Fixpoint utf8_data (s : string) : list Z :=
  match s with
  | EmptyString => []
  | String c s' => Z.of_nat (nat_of_ascii c) :: utf8_data s'
  end.

Section Builder.

(** [JSON.stringify] on a payload, a service of the runtime. *)
Variable stringify_payload : BLEPaymentPayload -> string.

Definition createPaymentAdvertisingConfig
    (deviceName serviceUUID : string) (payload : BLEPaymentPayload)
  : AdvertisingConfig :=
  {| deviceName := deviceName;
     serviceUUID := serviceUUID;
     manufacturerData := utf8_data (stringify_payload payload);
     txPowerLevel := -12;
     advertiseMode := 0;
     includeDeviceName := true;
     includeTxPowerLevel := true;
     connectable := true;
     timeout := Some 60000;
     interval := Some 100;
     payload := Some payload |}.

End Builder.

Definition createAdvertisingConfig (deviceName serviceUUID : string)
  : AdvertisingConfig :=
  {| deviceName := deviceName;
     serviceUUID := serviceUUID;
     manufacturerData := utf8_data "AirChainPay";
     txPowerLevel := -12;
     advertiseMode := 0;
     includeDeviceName := true;
     includeTxPowerLevel := true;
     connectable := true;
     timeout := Some 0;
     interval := Some 100;
     payload := None |}.

(** ** Validation *)

Definition hexClass : RegExp.CharClass :=
  [RegExp.ClassRange "0" "9"; RegExp.ClassRange "a" "f"]%char.

(** [/^[0-9a-f]{8}-[0-9a-f]{4}-[0-9a-f]{4}-[0-9a-f]{4}-[0-9a-f]{12}$/i] *)
Definition uuidRegex : list RegExp.Term :=
  [RegExp.TClass hexClass 8; RegExp.TChar "-"%char;
   RegExp.TClass hexClass 4; RegExp.TChar "-"%char;
   RegExp.TClass hexClass 4; RegExp.TChar "-"%char;
   RegExp.TClass hexClass 4; RegExp.TChar "-"%char;
   RegExp.TClass hexClass 12].

Definition isValidUUID (uuid : string) : bool :=
  RegExp.test_anchored true uuidRegex uuid.

(** [errors.push(msg)] under a condition: the list grows at its end. *)
Definition push_if (cond : bool) (msg : string) (errors : list string)
  : list string :=
  if cond then errors ++ [msg] else errors.

Definition MSG_NAME := "Device name is required".
Definition MSG_UUID_REQUIRED := "Service UUID is required".
Definition MSG_UUID_FORMAT := "Invalid service UUID format".
Definition MSG_TX_POWER := "TX power level must be between -30 and 10 dBm".
Definition MSG_MODE := "Advertise mode must be 0, 1, or 2".
Definition MSG_INTERVAL := "Advertising interval must be between 20ms and 10240ms".
Definition MSG_WALLET := "Payload wallet address is required".
Definition MSG_TIMESTAMP := "Payload timestamp is required".

Definition validate_payload (p : option BLEPaymentPayload) (errors : list string)
  : list string :=
  match p with
  | Some pl =>
      let errors := push_if (negb (truthy_string (walletAddress pl))) MSG_WALLET errors in
      push_if (negb (truthy_number (timestamp pl))) MSG_TIMESTAMP errors
  | None => errors
  end.

Definition interval_out_of_range (i : option Z) : bool :=
  truthy_opt_number i &&
  match i with
  | Some v => (v <? 20) || (v >? 10240)
  | None => false
  end.

Definition validateAdvertisingConfig (config : AdvertisingConfig) : ValidationResult :=
  let errors : list string := [] in
  let errors :=
    push_if (negb (truthy_string (deviceName config))
             || (String.length (deviceName config) =? 0)%nat)
            MSG_NAME errors in
  let errors :=
    push_if (negb (truthy_string (serviceUUID config))
             || (String.length (serviceUUID config) =? 0)%nat)
            MSG_UUID_REQUIRED errors in
  let errors :=
    push_if (negb (isValidUUID (serviceUUID config))) MSG_UUID_FORMAT errors in
  let errors :=
    push_if ((txPowerLevel config <? -30) || (txPowerLevel config >? 10))
            MSG_TX_POWER errors in
  let errors :=
    push_if ((advertiseMode config <? 0) || (advertiseMode config >? 2))
            MSG_MODE errors in
  let errors :=
    push_if (interval_out_of_range (interval config)) MSG_INTERVAL errors in
  let errors := validate_payload (payload config) errors in
  {| valid := (length errors =? 0)%nat; errors := errors |}.

(** The successive tests of [validateAdvertisingConfig] laid out as a
    table, each with the condition the source writes and the message it
    pushes when the condition holds (lines 104-136, in that order).
    [errors_are_failed_checks] shows that the validator above computes
    exactly what the table says. *)
Definition checks : list ((AdvertisingConfig -> bool) * string) :=
  [ (fun c => negb (truthy_string (deviceName c))
              || (String.length (deviceName c) =? 0)%nat, MSG_NAME);
    (fun c => negb (truthy_string (serviceUUID c))
              || (String.length (serviceUUID c) =? 0)%nat, MSG_UUID_REQUIRED);
    (fun c => negb (isValidUUID (serviceUUID c)), MSG_UUID_FORMAT);
    (fun c => (txPowerLevel c <? -30) || (txPowerLevel c >? 10), MSG_TX_POWER);
    (fun c => (advertiseMode c <? 0) || (advertiseMode c >? 2), MSG_MODE);
    (fun c => interval_out_of_range (interval c), MSG_INTERVAL);
    (fun c => match payload c with
              | Some p => negb (truthy_string (walletAddress p))
              | None => false
              end, MSG_WALLET);
    (fun c => match payload c with
              | Some p => negb (truthy_number (timestamp p))
              | None => false
              end, MSG_TIMESTAMP) ].

(** The messages of the tests that fire on [c], in the order of the
    source. *)
Definition failed_checks (c : AdvertisingConfig) : list string :=
  map snd (List.filter (fun r => fst r c) checks).

(** ** The world the controller runs in *)

(** What a [catch] clause receives: an [Error] object with its message,
    or any other value with its [String(_)] rendering. *)
Inductive Thrown :=
| ErrorObject (message : string)
| OtherValue (rendering : string).

(** [error instanceof Error ? error.message : String(error)] *)
Definition error_text (e : Thrown) : string :=
  match e with
  | ErrorObject m => m
  | OtherValue s => s
  end.

(** What an awaited [Promise<boolean>] settles to. *)
Inductive Settled :=
| Resolves (b : bool)
| Rejects (e : Thrown).

(** The interactions with the outside, in the order they happen. *)
Inductive Event :=
| EvNow (t : Z)
| EvStartBroadcast (data : string)
| EvStopBroadcast
| EvTimeout (ms : Z).

(** The radio driver.  Its answers may depend on everything that
    happened before the call. *)
Record Advertiser := {
  startBroadcast : list Event -> string -> Settled;
  stopBroadcast : list Event -> Settled;
  isAdvertising : bool;
}.

(** The descriptor advertised when the configuration has no payload. *)
Record Descriptor := {
  d_name : string;
  d_serviceUUID : string;
  d_type : string;
  d_version : string;
  d_timestamp : Z;
}.

(** Services of the runtime: [Platform.OS], [Date.now] (which may answer
    differently at each call) and [JSON.stringify]. *)
Record Runtime := {
  Platform_OS : string;
  Date_now : list Event -> Z;
  stringify_payload : BLEPaymentPayload -> string;
  stringify_descriptor : Descriptor -> string;
}.

Definition loc := nat.

(** The instance fields [metrics] and [restartAttempts], the heap the
    metrics objects live in, and the trace of interactions. *)
Record World := {
  heap : gmap loc AdvertisingMetrics;
  nextLoc : loc;
  metrics : gmap string loc;
  restartAttempts : gmap string Z;
  trace : list Event;
}.

Definition maxRestartAttempts : Z := 3.
Definition restartDelay : Z := 2000.

Definition set_heap (h : gmap loc AdvertisingMetrics) (w : World) : World :=
  {| heap := h; nextLoc := nextLoc w; metrics := metrics w;
     restartAttempts := restartAttempts w; trace := trace w |}.

Definition set_metrics (m : gmap string loc) (w : World) : World :=
  {| heap := heap w; nextLoc := nextLoc w; metrics := m;
     restartAttempts := restartAttempts w; trace := trace w |}.

Definition set_restartAttempts (r : gmap string Z) (w : World) : World :=
  {| heap := heap w; nextLoc := nextLoc w; metrics := metrics w;
     restartAttempts := r; trace := trace w |}.

Definition log_event (e : Event) (w : World) : World :=
  {| heap := heap w; nextLoc := nextLoc w; metrics := metrics w;
     restartAttempts := restartAttempts w; trace := trace w ++ [e] |}.

(** [new] of a metrics object: a location no map refers to yet. *)
Definition alloc (m : AdvertisingMetrics) (w : World) : loc * World :=
  (nextLoc w,
   {| heap := <[nextLoc w := m]> (heap w); nextLoc := S (nextLoc w);
      metrics := metrics w; restartAttempts := restartAttempts w;
      trace := trace w |}).

(** ** The monad of asynchronous methods *)

Inductive Completion (A : Type) :=
| Normal (a : A)
| Abrupt (e : Thrown).
Arguments Normal {A} a.
Arguments Abrupt {A} e.

Definition Async (A : Type) : Type := World -> Completion A * World.

Definition ret {A} (a : A) : Async A := fun w => (Normal a, w).

Definition bind {A B} (m : Async A) (k : A -> Async B) : Async B :=
  fun w =>
    match m w with
    | (Normal a, w') => k a w'
    | (Abrupt e, w') => (Abrupt e, w')
    end.

(** [try { body } catch (error) { handler }] *)
Definition try_catch {A} (body : Async A) (handler : Thrown -> Async A) : Async A :=
  fun w =>
    match body w with
    | (Normal a, w') => (Normal a, w')
    | (Abrupt e, w') => handler e w'
    end.

Definition modify (f : World -> World) : Async unit :=
  fun w => (Normal tt, f w).

Definition gets {A} (f : World -> A) : Async A :=
  fun w => (Normal (f w), w).

Declare Scope async_scope.
Delimit Scope async_scope with async.
Notation "'let*' x ':=' m 'in' k" := (bind m (fun x => k))
  (at level 10, x pattern, m at level 100, k at level 200) : async_scope.
Notation "'run' m 'then' k" := (bind m (fun _ => k))
  (at level 10, m at level 100, k at level 200) : async_scope.
Local Open Scope async_scope.

(** [Date.now()] *)
Definition now (rt : Runtime) : Async Z :=
  fun w => let t := Date_now rt (trace w) in (Normal t, log_event (EvNow t) w).

(** [await advertiser.startBroadcast(data)] *)
Definition await_startBroadcast (adv : Advertiser) (data : string) : Async bool :=
  fun w =>
    match startBroadcast adv (trace w) data with
    | Resolves b => (Normal b, log_event (EvStartBroadcast data) w)
    | Rejects e => (Abrupt e, log_event (EvStartBroadcast data) w)
    end.

(** [await advertiser.stopBroadcast()] *)
Definition await_stopBroadcast (adv : Advertiser) : Async bool :=
  fun w =>
    match stopBroadcast adv (trace w) with
    | Resolves b => (Normal b, log_event EvStopBroadcast w)
    | Rejects e => (Abrupt e, log_event EvStopBroadcast w)
    end.

(** [await new Promise(resolve => setTimeout(resolve, ms))] *)
Definition await_timeout (ms : Z) : Async unit :=
  modify (log_event (EvTimeout ms)).

(** ** Session tracker *)

Definition truthy_opt_string (s : option string) : bool :=
  match s with
  | Some v => truthy_string v
  | None => false
  end.

Definition recordMetrics (sessionId : string) (startTime : Z) (success : bool)
    (error : option string) (payloadTransmitted : option bool) : Async unit :=
  fun w =>
    let m := {| startTime := startTime;
                stopTime := None;
                duration := 0;
                success := success;
                errorCount := if truthy_opt_string error then 1 else 0;
                restartCount := 0;
                payloadTransmitted := payloadTransmitted |} in
    let (l, w') := alloc m w in
    (Normal tt, set_metrics (<[sessionId := l]> (metrics w')) w').

(** [metrics.stopTime = t; metrics.duration = metrics.stopTime - metrics.startTime] *)
Definition mark_stopped (t : Z) (m : AdvertisingMetrics) : AdvertisingMetrics :=
  {| startTime := startTime m;
     stopTime := Some t;
     duration := t - startTime m;
     success := success m;
     errorCount := errorCount m;
     restartCount := restartCount m;
     payloadTransmitted := payloadTransmitted m |}.

(** [metrics.restartCount++] *)
Definition increment_restart (m : AdvertisingMetrics) : AdvertisingMetrics :=
  {| startTime := startTime m;
     stopTime := stopTime m;
     duration := duration m;
     success := success m;
     errorCount := errorCount m;
     restartCount := restartCount m + 1;
     payloadTransmitted := payloadTransmitted m |}.

(** A write through a reference: the object at [l] changes for everyone
    who holds [l]. *)
Definition update_at (l : loc) (f : AdvertisingMetrics -> AdvertisingMetrics)
  : Async unit :=
  modify (fun w => set_heap (alter f l (heap w)) w).

(** [getAdvertisingMetrics]: the reference the map holds. *)
Definition getAdvertisingMetrics (sessionId : string) (w : World) : option loc :=
  metrics w !! sessionId.


(** What a holder of the reference [l] reads in the world [w]. *)
Definition deref (w : World) (l : loc) : option AdvertisingMetrics :=
  heap w !! l.

(** What a holder of a map of references reads under [sessionId]. *)
Definition read_through (snapshot : gmap string loc) (w : World) (sessionId : string)
  : option AdvertisingMetrics :=
  snapshot !! sessionId ≫= deref w.

Definition clearMetrics (sessionId : string) : Async unit :=
  modify (fun w =>
    set_restartAttempts (delete sessionId (restartAttempts w))
      (set_metrics (delete sessionId (metrics w)) w)).

Definition clearAllMetrics : Async unit :=
  modify (fun w => set_restartAttempts ∅ (set_metrics ∅ w)).

(** ** Advertising controller *)

(** The [{ success, error? }] objects the controller returns.  The field
    names carry a prefix because [success] already names a field of
    [AdvertisingMetrics]. *)
Record Outcome := {
  o_success : bool;
  o_error : option string;
}.

Definition succeeded : Outcome := {| o_success := true; o_error := None |}.
Definition failed (error : string) : Outcome :=
  {| o_success := false; o_error := Some error |}.

Definition MSG_PLATFORM := "BLE advertising is only supported on Android".
Definition MSG_NO_RESULT := "Failed to start advertising - no result from startBroadcast".
Definition MSG_INVALID_PREFIX := "Invalid advertising configuration: ".

(** [errors.join(', ')] *)
Definition join (sep : string) (l : list string) : string :=
  String.concat sep l.

Definition startAdvertisingWithEnhancements
    (rt : Runtime) (advertiser : Advertiser) (config : AdvertisingConfig)
    (sessionId : string) : Async Outcome :=
  let* startTime := now rt in
  try_catch
    (let validation := validateAdvertisingConfig config in
     if negb (valid validation) then
       let error := MSG_INVALID_PREFIX +:+ join ", " (errors validation) in
       run recordMetrics sessionId startTime false (Some error) None then
       ret (failed error)
     else if negb (String.eqb (Platform_OS rt) "android") then
       let error := MSG_PLATFORM in
       run recordMetrics sessionId startTime false (Some error) None then
       ret (failed error)
     else
       let* advertisingMessage :=
         match payload config with
         | Some p => ret (stringify_payload rt p)
         | None =>
             let* t := now rt in
             ret (stringify_descriptor rt
                    {| d_name := deviceName config;
                       d_serviceUUID := serviceUUID config;
                       d_type := "AirChainPay";
                       d_version := "1.0.0";
                       d_timestamp := t |})
         end in
       let* result := await_startBroadcast advertiser advertisingMessage in
       if result then
         run recordMetrics sessionId startTime true None
               (Some (bool_decide (is_Some (payload config)))) then
         ret succeeded
       else
         let error := MSG_NO_RESULT in
         run recordMetrics sessionId startTime false (Some error) None then
         ret (failed error))
    (fun error =>
       let errorMessage := error_text error in
       run recordMetrics sessionId startTime false (Some errorMessage) None then
       ret (failed errorMessage)).

Definition startPaymentAdvertising
    (rt : Runtime) (advertiser : Advertiser) (payload : BLEPaymentPayload)
    (sessionId : string) : Async Outcome :=
  let* startTime := now rt in
  try_catch
    (if negb (String.eqb (Platform_OS rt) "android") then
       let error := MSG_PLATFORM in
       run recordMetrics sessionId startTime false (Some error) None then
       ret (failed error)
     else
       let advertisingMessage := stringify_payload rt payload in
       let* result := await_startBroadcast advertiser advertisingMessage in
       if result then
         run recordMetrics sessionId startTime true None (Some true) then
         ret succeeded
       else
         let error := MSG_NO_RESULT in
         run recordMetrics sessionId startTime false (Some error) None then
         ret (failed error))
    (fun error =>
       let errorMessage := error_text error in
       run recordMetrics sessionId startTime false (Some errorMessage) None then
       ret (failed errorMessage)).

Definition stopAdvertisingWithEnhancements
    (rt : Runtime) (advertiser : Advertiser) (sessionId : string) : Async Outcome :=
  try_catch
    (let* result := await_stopBroadcast advertiser in
     let* metrics := gets (getAdvertisingMetrics sessionId) in
     run match metrics with
         | Some l =>
             let* t := now rt in
             update_at l (mark_stopped t)
         | None => ret tt
         end then
     run modify (fun w =>
           set_restartAttempts (delete sessionId (restartAttempts w)) w) then
     ret succeeded)
    (fun error =>
       let errorMessage := error_text error in
       ret (failed errorMessage)).

(** [this.restartAttempts.get(sessionId) || 0] *)
Definition current_attempts (sessionId : string) (w : World) : Z :=
  match restartAttempts w !! sessionId with
  | Some n => if truthy_number n then n else 0
  | None => 0
  end.

Definition restartAdvertisingIfNeeded
    (rt : Runtime) (advertiser : Advertiser) (config : AdvertisingConfig)
    (sessionId : string) : Async bool :=
  let* attempts := gets (current_attempts sessionId) in
  if attempts >=? maxRestartAttempts then
    ret false
  else
    run modify (fun w =>
          set_restartAttempts (<[sessionId := attempts + 1]> (restartAttempts w)) w) then
    run await_timeout restartDelay then
    let* result := startAdvertisingWithEnhancements rt advertiser config sessionId in
    run (if o_success result then
           let* metrics := gets (getAdvertisingMetrics sessionId) in
           match metrics with
           | Some l => update_at l increment_restart
           | None => ret tt
           end
         else ret tt) then
    ret (o_success result).

(** ** Statistics *)

(** The outcome of a JavaScript division of two integers. *)
Inductive JsNumber :=
| Finite (q : Q)
| NaN
| Infinity (negative : bool).

Definition js_div (a b : Z) : JsNumber :=
  if b =? 0 then (if a =? 0 then NaN else Infinity (a <? 0))
  else if 0 <? b then Finite (Qmake a (Z.to_pos b))
  else Finite (Qmake (- a) (Z.to_pos (- b))).

Record Statistics := {
  totalSessions : Z;
  successfulSessions : Z;
  failedSessions : Z;
  averageDuration : JsNumber;
  totalRestarts : Z;
  payloadTransmissions : Z;
}.

(** [Array.from(this.metrics.values())]: the objects the map refers to.
    The aggregates below are counts and sums, which do not depend on the
    order of the array. *)
Definition sessions_of (w : World) : list AdvertisingMetrics :=
  omap (deref w) (snd <$> map_to_list (metrics w)).

Definition array_length {A} (l : list A) : Z := Z.of_nat (length l).

Definition getAdvertisingStatistics (w : World) : Statistics :=
  let sessions := sessions_of w in
  let successfulSessions := filter (fun s => success s = true) sessions in
  let failedSessions := filter (fun s => negb (success s) = true) sessions in
  let totalRestarts := foldl (fun sum s => sum + restartCount s) 0 sessions in
  let payloadTransmissions :=
    array_length (filter (fun s => truthy_opt_bool (payloadTransmitted s) = true) sessions) in
  let averageDuration :=
    if array_length sessions >? 0
    then js_div (foldl (fun sum s => sum + duration s) 0 sessions)
                (array_length sessions)
    else Finite 0 in
  {| totalSessions := array_length sessions;
     successfulSessions := array_length successfulSessions;
     failedSessions := array_length failedSessions;
     averageDuration := averageDuration;
     totalRestarts := totalRestarts;
     payloadTransmissions := payloadTransmissions |}.

(** * Specification-side notions and sample data *)

(** ** The UUID shape and the rules of the validator *)

(** A hexadecimal digit, in lower or upper case. *)
Definition is_hex_digit (c : ascii) : bool :=
  let n := nat_of_ascii c in
  ((48 <=? n) && (n <=? 57) || (97 <=? n) && (n <=? 102)
   || (65 <=? n) && (n <=? 70))%nat.

Fixpoint all_hex (g : string) : bool :=
  match g with
  | EmptyString => true
  | String c g' => is_hex_digit c && all_hex g'
  end.

(** A group of exactly [n] hexadecimal digits. *)
Definition hex_group (n : nat) (g : string) : Prop :=
  String.length g = n /\ all_hex g = true.

(** The 8-4-4-4-12 shape in the words of the specification: five groups
    of hexadecimal digits of these lengths, separated by hyphens. *)
Definition uuid_shape (s : string) : Prop :=
  exists g1 g2 g3 g4 g5,
    s = g1 +:+ "-" +:+ g2 +:+ "-" +:+ g3 +:+ "-" +:+ g4 +:+ "-" +:+ g5
    /\ hex_group 8 g1 /\ hex_group 4 g2 /\ hex_group 4 g3
    /\ hex_group 4 g4 /\ hex_group 12 g5.


(** ** Sample configurations *)

Definition sample_uuid : string := "123e4567-e89b-12d3-a456-426614174000".

Definition sample_payload : BLEPaymentPayload :=
  {| walletAddress := "0x52908400098527886E0F7030069857D2E4169EE7";
     timestamp := 1700000000000;
     paymentFields := [("amount", "5"); ("token", "USDC")] |}.

(** An empty device name together with a transmit power above range. *)
Definition nameless_loud_config : AdvertisingConfig :=
  {| deviceName := "";
     serviceUUID := sample_uuid;
     manufacturerData := [];
     txPowerLevel := 20;
     advertiseMode := 1;
     includeDeviceName := true;
     includeTxPowerLevel := true;
     connectable := true;
     timeout := None;
     interval := None;
     payload := None |}.

(** Well-formed but for an interval of zero. *)
Definition zero_interval_config : AdvertisingConfig :=
  {| deviceName := "Alice-Phone";
     serviceUUID := sample_uuid;
     manufacturerData := [];
     txPowerLevel := -12;
     advertiseMode := 1;
     includeDeviceName := true;
     includeTxPowerLevel := true;
     connectable := true;
     timeout := Some 0;
     interval := Some 0;
     payload := Some sample_payload |}.

(** ** Observations on worlds and traces *)

(** The statistics of a tracker that holds nothing. *)
Definition no_statistics : Statistics :=
  {| totalSessions := 0;
     successfulSessions := 0;
     failedSessions := 0;
     averageDuration := Finite 0;
     totalRestarts := 0;
     payloadTransmissions := 0 |}.

Definition is_startBroadcast (e : Event) : bool :=
  match e with
  | EvStartBroadcast _ => true
  | _ => false
  end.

Definition is_driver_call (e : Event) : bool :=
  match e with
  | EvStartBroadcast _ | EvStopBroadcast => true
  | _ => false
  end.

(** How many times the trace shows [startBroadcast] invoked. *)
Definition broadcasts (tr : list Event) : nat :=
  length (List.filter is_startBroadcast tr).

Definition driver_calls (tr : list Event) : list Event :=
  List.filter is_driver_call tr.

(** A driver whose [startBroadcast] never resolves to [true]: it
    resolves to [false] or rejects, whatever happened before. *)
Definition always_fails (adv : Advertiser) : Prop :=
  forall tr data, startBroadcast adv tr data <> Resolves true.

(** ** Sample runtimes, drivers and worlds *)

(** A clock that advances with every interaction. *)
Definition sample_clock (tr : list Event) : Z :=
  1000 + 50 * Z.of_nat (length tr).

Definition sample_stringify_payload (p : BLEPaymentPayload) : string :=
  "{walletAddress:" +:+ walletAddress p +:+ "}".

Definition sample_stringify_descriptor (d : Descriptor) : string :=
  "{name:" +:+ d_name d +:+ ",serviceUUID:" +:+ d_serviceUUID d +:+ "}".

Definition android_runtime : Runtime :=
  {| Platform_OS := "android";
     Date_now := sample_clock;
     stringify_payload := sample_stringify_payload;
     stringify_descriptor := sample_stringify_descriptor |}.

Definition ios_runtime : Runtime :=
  {| Platform_OS := "ios";
     Date_now := sample_clock;
     stringify_payload := sample_stringify_payload;
     stringify_descriptor := sample_stringify_descriptor |}.

(** Resolves to [true] on every call. *)
Definition willing_driver : Advertiser :=
  {| startBroadcast := fun _ _ => Resolves true;
     stopBroadcast := fun _ => Resolves true;
     isAdvertising := false |}.

(** Resolves to [false] on every call. *)
Definition declining_driver : Advertiser :=
  {| startBroadcast := fun _ _ => Resolves false;
     stopBroadcast := fun _ => Resolves false;
     isAdvertising := false |}.

(** Rejects every call. *)
Definition broken_driver : Advertiser :=
  {| startBroadcast := fun _ _ => Rejects (ErrorObject "radio unavailable");
     stopBroadcast := fun _ => Rejects (ErrorObject "radio unavailable");
     isAdvertising := false |}.

Definition sample_config : AdvertisingConfig :=
  createAdvertisingConfig "Alice-Phone" sample_uuid.

(** The world of a new instance. *)
Definition new_world : World :=
  {| heap := ∅; nextLoc := 0%nat; metrics := ∅; restartAttempts := ∅;
     trace := [] |}.

(** One session started with success on Android. *)
Definition advertising_world : World :=
  snd (startAdvertisingWithEnhancements android_runtime willing_driver
         sample_config "session-1" new_world).

(** The same session after two restart attempts have been counted. *)
Definition retrying_world : World :=
  set_restartAttempts (<["session-1" := 2]> ∅) advertising_world.

(** ** Notions the claims on the controller are stated with *)

(** The record [recordMetrics] leaves for a failed start at [t]. *)
Definition failure_record (t : Z) : AdvertisingMetrics :=
  {| startTime := t;
     stopTime := None;
     duration := 0;
     success := false;
     errorCount := 1;
     restartCount := 0;
     payloadTransmitted := None |}.

(** A caller that invokes [restartAdvertisingIfNeeded] [n] times in a
    row for one session and collects the answers. *)
Fixpoint restart_repeatedly (rt : Runtime) (adv : Advertiser)
    (cfg : AdvertisingConfig) (sid : string) (n : nat) : Async (list bool) :=
  match n with
  | O => ret []
  | S n' =>
      let* b := restartAdvertisingIfNeeded rt adv cfg sid in
      let* bs := restart_repeatedly rt adv cfg sid n' in
      ret (b :: bs)
  end.

(** The world in which the retried [start] runs: counter raised, backoff
    elapsed. *)
Definition after_backoff (sid : string) (w : World) : World :=
  log_event (EvTimeout restartDelay)
    (set_restartAttempts
       (<[sid := current_attempts sid w + 1]> (restartAttempts w)) w).

(** Every reference the metrics map holds has been allocated. *)
Definition well_formed (w : World) : Prop :=
  forall k l, metrics w !! k = Some l -> (l < nextLoc w)%nat.


Definition stopped_world : World :=
  snd (stopAdvertisingWithEnhancements android_runtime willing_driver
         "session-1" advertising_world).

(** The store after [clearAllMetrics], with the objects of earlier
    sessions still on the heap. *)
Definition cleared_world : World :=
  snd (clearAllMetrics retrying_world).

(** ** Calls on an instance and what they keep *)

(** The record [recordMetrics] creates for a start at [t] that returned
    [o], with the payload flag [pt] it was given. *)
Definition recorded (t : Z) (o : Outcome) (pt : option bool) : AdvertisingMetrics :=
  {| startTime := t;
     stopTime := None;
     duration := 0;
     success := o_success o;
     errorCount := if truthy_opt_string (o_error o) then 1 else 0;
     restartCount := 0;
     payloadTransmitted := pt |}.

(** The trace at which [start] invokes the driver, given the trace [tr]
    after its first clock reading, and the message it passes: the
    payload alone, or a descriptor stamped with a second clock
    reading. *)
Definition advertising_message (rt : Runtime) (cfg : AdvertisingConfig)
    (tr : list Event) : list Event * string :=
  match payload cfg with
  | Some p => (tr, stringify_payload rt p)
  | None =>
      ((tr ++ [EvNow (Date_now rt tr)])%list,
       stringify_descriptor rt
         {| d_name := deviceName cfg;
            d_serviceUUID := serviceUUID cfg;
            d_type := "AirChainPay";
            d_version := "1.0.0";
            d_timestamp := Date_now rt tr |})
  end.

(** What the controller makes of the driver's answer to
    [startBroadcast]. *)
Definition outcome_of (s : Settled) : Outcome :=
  match s with
  | Resolves true => succeeded
  | Resolves false => failed MSG_NO_RESULT
  | Rejects e => failed (error_text e)
  end.

(** A driver whose [startBroadcast] resolves to [true] whatever happened
    before. *)
Definition always_succeeds (adv : Advertiser) : Prop :=
  forall tr data, startBroadcast adv tr data = Resolves true.

(** A clock that never runs backwards as the trace grows. *)
Definition monotone_clock (rt : Runtime) : Prop :=
  forall tr evs, Date_now rt tr <= Date_now rt (tr ++ evs).

(** The public methods that change an instance, with their arguments. *)
Inductive Call :=
| CallStart (adv : Advertiser) (cfg : AdvertisingConfig) (sid : string)
| CallStartPayment (adv : Advertiser) (p : BLEPaymentPayload) (sid : string)
| CallStop (adv : Advertiser) (sid : string)
| CallRestart (adv : Advertiser) (cfg : AdvertisingConfig) (sid : string)
| CallClear (sid : string)
| CallClearAll.

Definition perform (rt : Runtime) (w : World) (c : Call) : World :=
  match c with
  | CallStart adv cfg sid =>
      snd (startAdvertisingWithEnhancements rt adv cfg sid w)
  | CallStartPayment adv p sid => snd (startPaymentAdvertising rt adv p sid w)
  | CallStop adv sid => snd (stopAdvertisingWithEnhancements rt adv sid w)
  | CallRestart adv cfg sid =>
      snd (restartAdvertisingIfNeeded rt adv cfg sid w)
  | CallClear sid => snd (clearMetrics sid w)
  | CallClearAll => snd (clearAllMetrics w)
  end.

(** The world after a sequence of calls, one after the other. *)
Definition run_calls (rt : Runtime) (calls : list Call) (w : World) : World :=
  fold_left (perform rt) calls w.

(** The session a call is about; [clearAllMetrics] is about all of
    them. *)
Definition call_session (c : Call) : option string :=
  match c with
  | CallStart _ _ sid => Some sid
  | CallStartPayment _ _ sid => Some sid
  | CallStop _ sid => Some sid
  | CallRestart _ _ sid => Some sid
  | CallClear sid => Some sid
  | CallClearAll => None
  end.

(** What the methods of the class keep true of every record they
    write. *)
Definition record_sane (m : AdvertisingMetrics) : Prop :=
  (errorCount m = 0 \/ errorCount m = 1)
  /\ (restartCount m = 0 \/ restartCount m = 1)
  /\ (success m = true -> errorCount m = 0)
  /\ (success m = false ->
      restartCount m = 0 /\ truthy_opt_bool (payloadTransmitted m) = false)
  /\ duration m = match stopTime m with
                  | Some t => t - startTime m
                  | None => 0
                  end.

(** What they keep true of the instance: every session refers to a
    record of its own on the heap, every record is sane, and every
    restart counter is between 1 and the maximum. *)
Definition consistent (w : World) : Prop :=
  (forall k l, metrics w !! k = Some l -> is_Some (heap w !! l))
  /\ (forall k1 k2 l,
        metrics w !! k1 = Some l -> metrics w !! k2 = Some l -> k1 = k2)
  /\ (forall l m, heap w !! l = Some m -> (l < nextLoc w)%nat /\ record_sane m)
  /\ (forall k n, restartAttempts w !! k = Some n -> 1 <= n <= maxRestartAttempts).

(** A session started and then restarted until the budget is spent,
    against a driver that declines. *)
Definition exhausted_world : World :=
  snd (restart_repeatedly android_runtime declining_driver sample_config
         "session-1" 3 advertising_world).

(** Two sessions, the second one failed. *)
Definition two_sessions_world : World :=
  snd (startAdvertisingWithEnhancements android_runtime declining_driver
         sample_config "session-2" advertising_world).

(** * Properties *)

(** ** The pattern on the strings of the tests *)

Example uuid_ok :
  isValidUUID "123e4567-e89b-12d3-A456-426614174000" = true.
Proof. reflexivity. Qed.

Example uuid_short :
  isValidUUID "123e4567-e89b-12d3-a456" = false.
Proof. reflexivity. Qed.

(** ** The UUID pattern *)

Lemma append_empty_r (x : string) : x +:+ "" = x.
Proof.
  induction x as [|c x IH]; [reflexivity |].
  change (String c (x +:+ "") = String c x). f_equal. exact IH.
Qed.

Lemma hexClass_matches c :
  RegExp.class_matches true hexClass c = is_hex_digit c.
Proof.
  destruct c as [[] [] [] [] [] [] [] []]; vm_compute; reflexivity.
Qed.

Lemma hyphen_matches c :
  RegExp.char_eqb true "-"%char c = true <-> c = "-"%char.
Proof.
  destruct c as [[] [] [] [] [] [] [] []]; vm_compute;
    split; intros H; try reflexivity; discriminate H.
Qed.

Lemma count_hex_spec n s rest :
  RegExp.count_class true hexClass n s = Some rest
  <-> exists g, s = g +:+ rest /\ hex_group n g.
Proof.
  revert s. induction n as [|n IH]; intros s; cbn [RegExp.count_class].
  - split.
    + intros [= ->]. exists "". repeat split.
    + intros (g & -> & Hlen & _). destruct g; [reflexivity | discriminate Hlen].
  - destruct s as [|c s].
    + split; [discriminate |].
      intros (g & Hs & Hlen & _). destruct g; [discriminate Hlen | discriminate Hs].
    + rewrite hexClass_matches. destruct (is_hex_digit c) eqn:Hc.
      * rewrite IH. split.
        -- intros (g & -> & Hlen & Hall). exists (String c g).
           repeat split; simpl; [congruence | rewrite Hc; exact Hall].
        -- intros (g & Hs & Hlen & Hall). destruct g as [|c' g]; [discriminate Hlen |].
           simpl in Hs, Hlen, Hall. injection Hs as <- ->. injection Hlen as Hlen.
           apply andb_prop in Hall as [_ Hall]. exists g. repeat split; assumption.
      * split; [discriminate |].
        intros (g & Hs & Hlen & Hall). destruct g as [|c' g]; [discriminate Hlen |].
        simpl in Hs, Hall. injection Hs as <- _. rewrite Hc in Hall. discriminate Hall.
Qed.

(** One group followed by a hyphen, then whatever the remaining terms
    accept. *)
Lemma match_group_hyphen n ts s rest :
  RegExp.match_terms true
    (RegExp.TClass hexClass n :: RegExp.TChar "-"%char :: ts) s = Some rest
  <-> exists g s', s = g +:+ "-" +:+ s' /\ hex_group n g
                   /\ RegExp.match_terms true ts s' = Some rest.
Proof.
  cbn [RegExp.match_terms]. split.
  - destruct (RegExp.count_class true hexClass n s) as [r|] eqn:Hc; [|discriminate].
    apply count_hex_spec in Hc as (g & -> & Hg).
    destruct r as [|c r]; [discriminate |].
    destruct (RegExp.char_eqb true "-"%char c) eqn:Hh; [|discriminate].
    apply hyphen_matches in Hh as ->. intros Hm. exists g, r. auto.
  - intros (g & s' & -> & Hg & Hm).
    assert (Hc : RegExp.count_class true hexClass n (g +:+ "-" +:+ s')
                 = Some ("-" +:+ s')).
    { apply count_hex_spec. exists g. auto. }
    rewrite Hc. exact Hm.
Qed.

Lemma match_last_group n s :
  RegExp.match_terms true [RegExp.TClass hexClass n] s = Some ""
  <-> hex_group n s.
Proof.
  cbn [RegExp.match_terms]. split.
  - destruct (RegExp.count_class true hexClass n s) as [r|] eqn:Hc; [|discriminate].
    intros [= ->]. apply count_hex_spec in Hc as (g & -> & Hg).
    rewrite append_empty_r. exact Hg.
  - intros Hg.
    assert (Hc : RegExp.count_class true hexClass n s = Some "").
    { apply count_hex_spec. exists s. split; [|exact Hg].
      symmetry. apply append_empty_r. }
    rewrite Hc. reflexivity.
Qed.

Lemma test_anchored_spec ts s :
  RegExp.test_anchored true ts s = true
  <-> RegExp.match_terms true ts s = Some "".
Proof.
  unfold RegExp.test_anchored.
  destruct (RegExp.match_terms true ts s) as [[|c r]|]; split;
    intros H; try reflexivity; discriminate H.
Qed.

Lemma isValidUUID_shape s : isValidUUID s = true <-> uuid_shape s.
Proof.
  unfold isValidUUID, uuidRegex, uuid_shape.
  rewrite test_anchored_spec, match_group_hyphen. split.
  - intros (g1 & s1 & -> & H1 & Hm).
    apply match_group_hyphen in Hm as (g2 & s2 & -> & H2 & Hm).
    apply match_group_hyphen in Hm as (g3 & s3 & -> & H3 & Hm).
    apply match_group_hyphen in Hm as (g4 & s4 & -> & H4 & Hm).
    apply match_last_group in Hm.
    exists g1, g2, g3, g4, s4. auto 10.
  - intros (g1 & g2 & g3 & g4 & g5 & -> & H1 & H2 & H3 & H4 & H5).
    exists g1. eexists. split; [reflexivity |]. split; [exact H1 |].
    apply match_group_hyphen. exists g2. eexists. split; [reflexivity |].
    split; [exact H2 |].
    apply match_group_hyphen. exists g3. eexists. split; [reflexivity |].
    split; [exact H3 |].
    apply match_group_hyphen. exists g4. eexists. split; [reflexivity |].
    split; [exact H4 |].
    apply match_last_group. exact H5.
Qed.

(** ** The validator against the table of its tests *)

Lemma missing_string_cond s :
  negb (truthy_string s) || (String.length s =? 0)%nat = String.eqb s "".
Proof. destruct s; reflexivity. Qed.

Lemma out_of_range_cond lo hi x :
  (x <? lo) || (x >? hi) = negb ((lo <=? x) && (x <=? hi)).
Proof.
  rewrite Z.gtb_ltb.
  destruct (Z.ltb_spec x lo), (Z.ltb_spec hi x), (Z.leb_spec lo x),
    (Z.leb_spec x hi); simpl; try reflexivity; lia.
Qed.

Lemma interval_cond i :
  interval_out_of_range i =
  match i with
  | Some v => negb (v =? 0) && negb ((20 <=? v) && (v <=? 10240))
  | None => false
  end.
Proof.
  destruct i as [v|]; [|reflexivity]. unfold interval_out_of_range.
  simpl. unfold truthy_number. rewrite out_of_range_cond. reflexivity.
Qed.

Lemma errors_are_failed_checks c :
  errors (validateAdvertisingConfig c) = failed_checks c.
Proof.
  unfold validateAdvertisingConfig, validate_payload, failed_checks, checks.
  cbn [errors List.filter fst snd].
  destruct (payload c) as [p|];
    repeat match goal with
           | |- context [push_if ?b _ _] => destruct b; cbn [push_if app]
           end; reflexivity.
Qed.

(** The conditions of the table in a form fit for arithmetic. *)
Ltac simplify_checks :=
  rewrite ?missing_string_cond, ?out_of_range_cond, ?interval_cond;
  unfold truthy_string, truthy_number; rewrite ?negb_involutive.

Ltac simplify_checks_in H :=
  rewrite ?missing_string_cond, ?out_of_range_cond, ?interval_cond in H;
  unfold truthy_string, truthy_number in H; rewrite ?negb_involutive in H.

Lemma valid_iff_no_errors c :
  valid (validateAdvertisingConfig c) = false
  <-> errors (validateAdvertisingConfig c) <> [].
Proof.
  change (valid (validateAdvertisingConfig c))
    with (length (errors (validateAdvertisingConfig c)) =? 0)%nat.
  destruct (errors (validateAdvertisingConfig c)); simpl; split; congruence.
Qed.

Lemma in_failed_checks c msg :
  In msg (failed_checks c)
  <-> exists r, In r checks /\ fst r c = true /\ snd r = msg.
Proof.
  unfold failed_checks. rewrite in_map_iff. split.
  - intros (r & <- & Hr). apply filter_In in Hr as [Hin Hc]. eauto.
  - intros (r & Hin & Hc & <-). exists r. split; [reflexivity |].
    apply filter_In. auto.
Qed.

(** Reading a membership in [failed_checks] off the table: one case per
    test, cases with another message closed by comparing the texts. *)
Ltac by_rule H :=
  apply in_failed_checks in H as (r & Hin & Hc & Hmsg);
  unfold checks in Hin; cbn [In] in Hin;
  repeat (destruct Hin as [<- | Hin]; [try discriminate Hmsg |]);
  try contradiction; cbn [fst] in Hc; simplify_checks_in Hc.

(** ** Claims about the builder and the validator *)






(** C7.  The service-id check accepts a string exactly when it has the
    8-4-4-4-12 shape of hexadecimal groups in either case, and
    [validateAdvertisingConfig] reports the invalid-format error for
    every config whose service id is any other string. *)
Theorem uuid_check_accepts_exactly_the_shape (s : string) :
  (isValidUUID s = true <-> uuid_shape s)
  /\ (forall c, serviceUUID c = s ->
        (In MSG_UUID_FORMAT (errors (validateAdvertisingConfig c))
         <-> ~ uuid_shape s)).
Proof.
  split; [apply isValidUUID_shape |].
  intros c <-. rewrite errors_are_failed_checks, <- isValidUUID_shape. split.
  - intros H. by_rule H. cbn [fst] in Hc.
    destruct (isValidUUID (serviceUUID c)); [discriminate Hc | discriminate].
  - intros H. apply in_failed_checks.
    exists (fun c => negb (isValidUUID (serviceUUID c)), MSG_UUID_FORMAT).
    split; [unfold checks; cbn [In]; auto |].
    split; [|reflexivity]. cbn [fst].
    destruct (isValidUUID (serviceUUID c)); [contradiction H |]; reflexivity.
Qed.

Lemma uuid_check_accepts_exactly_the_shape_witness :
  In MSG_UUID_FORMAT
     (errors (validateAdvertisingConfig
                (createAdvertisingConfig "Alice-Phone" "123e4567-e89b-12d3-a456")))
  <-> ~ uuid_shape "123e4567-e89b-12d3-a456".
Proof.
  apply (uuid_check_accepts_exactly_the_shape "123e4567-e89b-12d3-a456").
  reflexivity.
Defined.

(** C10.  The interval is tested for presence by truthiness: the
    interval error is reported exactly for an interval that is set, not
    zero, and outside [20, 10240]; an interval of 0 gives no interval
    error, and a config with interval 0 whose other fields are
    well-formed is valid. *)
Theorem validate_interval_by_truthiness (c : AdvertisingConfig) :
  (In MSG_INTERVAL (errors (validateAdvertisingConfig c))
   <-> exists i, interval c = Some i /\ i <> 0 /\ (i < 20 \/ 10240 < i))
  /\ (interval c = Some 0 ->
      ~ In MSG_INTERVAL (errors (validateAdvertisingConfig c))
      /\ (deviceName c <> "" ->
          uuid_shape (serviceUUID c) ->
          -30 <= txPowerLevel c <= 10 ->
          0 <= advertiseMode c <= 2 ->
          (forall p, payload c = Some p ->
                     walletAddress p <> "" /\ timestamp p <> 0) ->
          validateAdvertisingConfig c = {| valid := true; errors := [] |})).
Proof.
  assert (Hiff : In MSG_INTERVAL (errors (validateAdvertisingConfig c))
     <-> exists i, interval c = Some i /\ i <> 0 /\ (i < 20 \/ 10240 < i)).
  { rewrite errors_are_failed_checks. split.
    - intros H. by_rule H. cbn [fst] in Hc.
      destruct (interval c) as [i|]; [|discriminate Hc].
      exists i. split; [reflexivity |].
      apply andb_true_iff in Hc as [Hz Hr].
      apply negb_true_iff in Hz, Hr. apply Z.eqb_neq in Hz.
      split; [exact Hz |]. apply andb_false_iff in Hr as [Hr | Hr];
        apply Z.leb_gt in Hr; lia.
    - intros (i & Hi & Hz & Hr). apply in_failed_checks.
      eexists (_, MSG_INTERVAL).
      split; [unfold checks; cbn [In]; do 5 right; left; reflexivity |].
      split; [|reflexivity]. cbn [fst]. rewrite interval_cond, Hi.
      apply andb_true_iff. split; apply negb_true_iff.
      + apply Z.eqb_neq. exact Hz.
      + apply andb_false_iff. destruct Hr; [left | right]; apply Z.leb_gt; lia. }
  split; [exact Hiff |].
  intros Hzero. split.
  - rewrite Hiff. intros (i & Hi & Hz & _). congruence.
  - intros Hname Huuid Hpow Hmode Hpay.
    assert (Herr : errors (validateAdvertisingConfig c) = []).
    { rewrite errors_are_failed_checks.
      destruct (failed_checks c) as [|m l] eqn:Hv; [reflexivity |].
      assert (H : In m (failed_checks c)) by (rewrite Hv; left; reflexivity).
      exfalso. clear Hv. apply in_failed_checks in H as (r & Hin & Hc & _).
      unfold checks in Hin. cbn [In] in Hin.
      repeat (destruct Hin as [<- | Hin]); try contradiction; cbn [fst] in Hc;
        simplify_checks_in Hc.
      - apply String.eqb_eq in Hc. contradiction.
      - apply isValidUUID_shape in Huuid. apply String.eqb_eq in Hc.
        rewrite Hc in Huuid. discriminate Huuid.
      - apply isValidUUID_shape in Huuid. rewrite Huuid in Hc. discriminate Hc.
      - apply negb_true_iff, andb_false_iff in Hc as [Hc | Hc];
          apply Z.leb_gt in Hc; lia.
      - apply negb_true_iff, andb_false_iff in Hc as [Hc | Hc];
          apply Z.leb_gt in Hc; lia.
      - rewrite Hzero in Hc. discriminate Hc.
      - destruct (payload c) as [p|]; [|discriminate Hc].
        rewrite negb_involutive in Hc.
        apply String.eqb_eq in Hc. destruct (Hpay p eq_refl). contradiction.
      - destruct (payload c) as [p|]; [|discriminate Hc].
        rewrite negb_involutive in Hc.
        apply Z.eqb_eq in Hc. destruct (Hpay p eq_refl). contradiction. }
    pose proof (valid_iff_no_errors c) as Hvalid.
    destruct (validateAdvertisingConfig c) as [v e]. cbn [errors valid] in *.
    subst e. destruct v; [reflexivity |].
    exfalso. apply Hvalid; reflexivity.
Qed.

Lemma validate_interval_by_truthiness_witness :
  ~ In MSG_INTERVAL (errors (validateAdvertisingConfig zero_interval_config))
  /\ validateAdvertisingConfig zero_interval_config
     = {| valid := true; errors := [] |}.
Proof.
  destruct (validate_interval_by_truthiness zero_interval_config) as [_ H].
  destruct (H eq_refl) as [Hno Hvalid]. split; [exact Hno |].
  apply Hvalid.
  - discriminate.
  - apply isValidUUID_shape. reflexivity.
  - cbn. lia.
  - cbn. lia.
  - intros p [= <-]. split; discriminate.
Defined.

(** C8.  [createPaymentAdvertisingConfig] is a function of its arguments
    and returns the given names and payload with transmit power -12,
    timeout 60000, interval 100, connectable and device name included.
    Its advertise mode is the constant 0, which under the encoding
    LOW_POWER=0, BALANCED=1, LOW_LATENCY=2 is LOW_POWER and not the
    BALANCED that the comment beside the constant names. *)
Theorem createPaymentAdvertisingConfig_defaults
    (stringify : BLEPaymentPayload -> string) (name uuid : string)
    (p : BLEPaymentPayload) :
  let c := createPaymentAdvertisingConfig stringify name uuid p in
  deviceName c = name
  /\ serviceUUID c = uuid
  /\ txPowerLevel c = -12
  /\ advertiseMode c = ADVERTISE_MODE_LOW_POWER
  /\ advertiseMode c <> ADVERTISE_MODE_BALANCED
  /\ timeout c = Some 60000
  /\ interval c = Some 100
  /\ connectable c = true
  /\ includeDeviceName c = true
  /\ payload c = Some p
  /\ manufacturerData c = utf8_data (stringify p).
Proof.
  cbn. repeat split; try reflexivity. discriminate.
Qed.

(** ** Claims about the tracker *)

(** C9.  With no record in the metrics store, [getAdvertisingStatistics]
    returns zero for every count and a finite [averageDuration] of 0:
    the guard on the number of sessions keeps the division from running
    on a zero divisor. *)
Theorem statistics_of_empty_store (w : World) :
  metrics w = ∅ -> getAdvertisingStatistics w = no_statistics.
Proof.
  intros Hempty. unfold getAdvertisingStatistics, sessions_of.
  rewrite Hempty, map_to_list_empty. reflexivity.
Qed.

Lemma statistics_of_empty_store_witness :
  metrics cleared_world = ∅
  /\ getAdvertisingStatistics cleared_world = no_statistics.
Proof.
  split; [reflexivity |].
  apply statistics_of_empty_store. reflexivity.
Defined.

(** ** What [start] does to the world *)

Ltac world_simpl :=
  cbn [fst snd negb heap nextLoc metrics restartAttempts trace
       set_heap set_metrics set_restartAttempts log_event].

Ltac step_async :=
  unfold startAdvertisingWithEnhancements, stopAdvertisingWithEnhancements,
    restartAdvertisingIfNeeded;
  unfold await_startBroadcast, await_stopBroadcast, await_timeout, update_at,
    recordMetrics, now;
  unfold bind, try_catch, ret, gets, modify, alloc, getAdvertisingMetrics;
  cbn [fst snd heap nextLoc metrics restartAttempts trace
       set_heap set_metrics set_restartAttempts log_event].

Lemma start_summary rt adv cfg sid w :
  exists o m w',
    startAdvertisingWithEnhancements rt adv cfg sid w = (Normal o, w')
    /\ heap w' = <[nextLoc w := m]> (heap w)
    /\ nextLoc w' = S (nextLoc w)
    /\ metrics w' = <[sid := nextLoc w]> (metrics w)
    /\ restartAttempts w' = restartAttempts w
    /\ (exists evs, trace w' = (trace w ++ evs)%list
                    /\ (broadcasts evs <= 1)%nat)
    /\ success m = o_success o
    /\ restartCount m = 0
    /\ stopTime m = None
    /\ startTime m = Date_now rt (trace w)
    /\ (always_fails adv -> o_success o = false).
Proof.
  step_async.
  destruct (valid (validateAdvertisingConfig cfg)); cbn [negb].
  2: { do 3 eexists. split; [reflexivity |]. cbn.
       repeat split; try reflexivity. eexists. split; [reflexivity |]. cbn. lia. }
  destruct (String.eqb (Platform_OS rt) "android"); cbn [negb].
  2: { do 3 eexists. split; [reflexivity |]. cbn.
       repeat split; try reflexivity. eexists. split; [reflexivity |]. cbn. lia. }
  destruct (payload cfg) as [p|]; cbn [trace log_event].
  - destruct (startBroadcast adv _ _) as [[|]|e] eqn:Hdrv;
      cbn [heap nextLoc metrics restartAttempts trace log_event];
      do 3 eexists; (split; [reflexivity |]); cbn;
      repeat split; try reflexivity;
      try (eexists; split; [rewrite <- ?app_assoc; reflexivity | cbn; lia]).
    intros Hfail. exfalso. exact (Hfail _ _ Hdrv).
  - destruct (startBroadcast adv _ _) as [[|]|e] eqn:Hdrv;
      cbn [heap nextLoc metrics restartAttempts trace log_event];
      do 3 eexists; (split; [reflexivity |]); cbn;
      repeat split; try reflexivity;
      try (eexists; split; [rewrite <- ?app_assoc; reflexivity | cbn; lia]).
    intros Hfail. exfalso. exact (Hfail _ _ Hdrv).
Qed.

(** ** Claims about [stop] *)

(** C1.  [stopAdvertisingWithEnhancements] never looks at what
    [stopBroadcast] resolves to: when it resolves to [false] the result
    is the same [{success: true}] as when it resolves to [true], whereas
    a rejection gives [{success: false}] with the error text. *)
Theorem stop_ignores_false_result rt adv sid w :
  stopBroadcast adv (trace w) = Resolves false ->
  fst (stopAdvertisingWithEnhancements rt adv sid w) = Normal succeeded
  /\ o_success succeeded = true.
Proof.
  intros Hdrv. step_async. rewrite Hdrv.
  cbn [metrics log_event].
  destruct (metrics w !! sid); split; reflexivity.
Qed.

Lemma stop_ignores_false_result_witness :
  fst (stopAdvertisingWithEnhancements android_runtime declining_driver
         "session-1" advertising_world) = Normal succeeded
  /\ o_success succeeded = true.
Proof.
  apply stop_ignores_false_result. reflexivity.
Defined.

(** C3, as the claim words it, fails: when [stopBroadcast] rejects, the
    restart-attempt counter of the session is still there after
    [stop]. *)
Lemma stop_keeps_counter_when_driver_throws :
  restartAttempts retrying_world !! "session-1" = Some 2
  /\ stopBroadcast broken_driver (trace retrying_world)
     = Rejects (ErrorObject "radio unavailable")
  /\ fst (stopAdvertisingWithEnhancements android_runtime broken_driver
            "session-1" retrying_world)
     = Normal (failed "radio unavailable")
  /\ restartAttempts
       (snd (stopAdvertisingWithEnhancements android_runtime broken_driver
               "session-1" retrying_world)) !! "session-1" = Some 2.
Proof.
  repeat split; vm_compute; reflexivity.
Qed.

(** C3, amended.  [stop] never completes abruptly: it always returns a
    result value.  When [stopBroadcast] does not throw, the
    restart-attempt counter of the session is cleared; when it throws,
    the result is a failure carrying the error text, and the counter,
    like the metrics, is left as it was. *)
Theorem stop_clears_counter_unless_thrown rt adv sid w :
  (exists o, fst (stopAdvertisingWithEnhancements rt adv sid w) = Normal o)
  /\ match stopBroadcast adv (trace w) with
     | Resolves _ =>
         restartAttempts (snd (stopAdvertisingWithEnhancements rt adv sid w))
           !! sid = None
     | Rejects e =>
         fst (stopAdvertisingWithEnhancements rt adv sid w)
           = Normal (failed (error_text e))
         /\ restartAttempts (snd (stopAdvertisingWithEnhancements rt adv sid w))
            = restartAttempts w
         /\ metrics (snd (stopAdvertisingWithEnhancements rt adv sid w))
            = metrics w
         /\ heap (snd (stopAdvertisingWithEnhancements rt adv sid w)) = heap w
     end.
Proof.
  step_async. destruct (stopBroadcast adv (trace w)) as [b|e].
  - cbn [metrics log_event]. destruct (metrics w !! sid);
      cbn [fst snd restartAttempts]; (split; [eauto |]); apply lookup_delete_eq.
  - cbn. split; [eauto |]. repeat split; reflexivity.
Qed.

(** ** Claims about [start] *)

(** C2, as the claim words it, fails: on a platform other than Android
    a config that is also invalid gets the validation error, not the
    platform error. *)
Lemma start_reports_invalid_config_before_platform :
  Platform_OS ios_runtime <> "android"
  /\ valid (validateAdvertisingConfig nameless_loud_config) = false
  /\ fst (startAdvertisingWithEnhancements ios_runtime willing_driver
            nameless_loud_config "session-1" new_world)
     = Normal (failed
         "Invalid advertising configuration: Device name is required, TX power level must be between -30 and 10 dBm")
  /\ fst (startAdvertisingWithEnhancements ios_runtime willing_driver
            nameless_loud_config "session-1" new_world)
     <> Normal (failed MSG_PLATFORM).
Proof.
  split; [discriminate |]. split; [reflexivity |].
  split; [vm_compute; reflexivity |]. vm_compute. discriminate.
Qed.

Lemma driver_calls_app tr evs :
  driver_calls (tr ++ evs) = (driver_calls tr ++ driver_calls evs)%list.
Proof. apply List.filter_app. Qed.

(** C2, amended.  [start] validates the config first and enforces the
    platform precondition second.  With an invalid config it returns
    the validation error on every platform; with a valid config on a
    platform other than Android it returns the platform error.  In both
    cases it records a failure for the session and returns without
    invoking the driver. *)
Theorem start_validates_then_checks_platform rt adv cfg sid w :
  let res := startAdvertisingWithEnhancements rt adv cfg sid w in
  let t := Date_now rt (trace w) in
  (valid (validateAdvertisingConfig cfg) = false ->
     fst res = Normal (failed (MSG_INVALID_PREFIX
                               +:+ join ", " (errors (validateAdvertisingConfig cfg))))
     /\ trace (snd res) = (trace w ++ [EvNow t])%list
     /\ driver_calls (trace (snd res)) = driver_calls (trace w)
     /\ read_through (metrics (snd res)) (snd res) sid = Some (failure_record t))
  /\ (valid (validateAdvertisingConfig cfg) = true ->
      Platform_OS rt <> "android" ->
     fst res = Normal (failed MSG_PLATFORM)
     /\ trace (snd res) = (trace w ++ [EvNow t])%list
     /\ driver_calls (trace (snd res)) = driver_calls (trace w)
     /\ read_through (metrics (snd res)) (snd res) sid = Some (failure_record t)).
Proof.
  cbv zeta. split.
  - intros Hinvalid. step_async. rewrite Hinvalid. world_simpl.
    split; [reflexivity |]. split; [reflexivity |].
    split; [rewrite driver_calls_app; apply app_nil_r |].
    unfold read_through, deref. world_simpl.
    rewrite lookup_insert_eq. cbn [mbind option_bind]. rewrite lookup_insert_eq.
    reflexivity.
  - intros Hvalid Hos. step_async. rewrite Hvalid. cbn [negb].
    apply String.eqb_neq in Hos. rewrite Hos. world_simpl.
    split; [reflexivity |]. split; [reflexivity |].
    split; [rewrite driver_calls_app; apply app_nil_r |].
    unfold read_through, deref. world_simpl.
    rewrite lookup_insert_eq. cbn [mbind option_bind]. rewrite lookup_insert_eq.
    reflexivity.
Qed.

Lemma start_validates_then_checks_platform_witness :
  fst (startAdvertisingWithEnhancements ios_runtime willing_driver
         sample_config "session-1" new_world)
  = Normal (failed MSG_PLATFORM)
  /\ driver_calls
       (trace (snd (startAdvertisingWithEnhancements ios_runtime willing_driver
                      sample_config "session-1" new_world)))
     = driver_calls (trace new_world)
  /\ fst (startAdvertisingWithEnhancements android_runtime willing_driver
            nameless_loud_config "session-1" new_world)
     = Normal (failed (MSG_INVALID_PREFIX
                       +:+ join ", " (errors (validateAdvertisingConfig
                                                nameless_loud_config)))).
Proof.
  destruct (start_validates_then_checks_platform ios_runtime willing_driver
              sample_config "session-1" new_world) as [_ Hplatform].
  destruct (start_validates_then_checks_platform android_runtime willing_driver
              nameless_loud_config "session-1" new_world) as [Hinvalid _].
  destruct Hplatform as (H1 & _ & H2 & _); [reflexivity | discriminate |].
  destruct Hinvalid as (H3 & _); [reflexivity |].
  split; [exact H1 |]. split; [exact H2 | exact H3].
Defined.

(** ** [restartIfNeeded], one call and many *)

Lemma restart_unfold rt adv cfg sid w :
  restartAdvertisingIfNeeded rt adv cfg sid w =
  if current_attempts sid w >=? maxRestartAttempts then (Normal false, w)
  else
    match startAdvertisingWithEnhancements rt adv cfg sid (after_backoff sid w) with
    | (Normal result, w2) =>
        if o_success result then
          match metrics w2 !! sid with
          | Some l =>
              (Normal (o_success result),
               set_heap (alter increment_restart l (heap w2)) w2)
          | None => (Normal (o_success result), w2)
          end
        else (Normal (o_success result), w2)
    | (Abrupt e, w2) => (Abrupt e, w2)
    end.
Proof.
  unfold restartAdvertisingIfNeeded, bind at 1, gets, ret.
  destruct (current_attempts sid w >=? maxRestartAttempts); [reflexivity |].
  unfold await_timeout, update_at, after_backoff.
  unfold bind, modify, ret, gets, getAdvertisingMetrics.
  cbv beta iota.
  destruct (startAdvertisingWithEnhancements rt adv cfg sid _) as [[o|e] w2];
    [|reflexivity].
  destruct (o_success o); [|reflexivity].
  destruct (metrics w2 !! sid); reflexivity.
Qed.

Lemma broadcasts_app tr evs :
  broadcasts (tr ++ evs) = (broadcasts tr + broadcasts evs)%nat.
Proof. unfold broadcasts. rewrite List.filter_app, length_app. reflexivity. Qed.

(** One call below the budget: what it returns and what it leaves. *)
Lemma restart_attempt rt adv cfg sid w :
  current_attempts sid w < maxRestartAttempts ->
  exists o w2 w',
    startAdvertisingWithEnhancements rt adv cfg sid (after_backoff sid w)
      = (Normal o, w2)
    /\ restartAdvertisingIfNeeded rt adv cfg sid w = (Normal (o_success o), w')
    /\ trace w' = trace w2
    /\ restartAttempts w' = <[sid := current_attempts sid w + 1]> (restartAttempts w)
    /\ nextLoc w' = S (nextLoc w)
    /\ metrics w' = <[sid := nextLoc w]> (metrics w)
    /\ (forall l, (l < nextLoc w)%nat -> heap w' !! l = heap w !! l)
    /\ (exists evs, trace w2 = (trace w ++ EvTimeout restartDelay :: evs)%list
                    /\ (broadcasts evs <= 1)%nat)
    /\ (always_fails adv -> o_success o = false).
Proof.
  intros Hbelow. rewrite restart_unfold.
  destruct (Z.geb_spec (current_attempts sid w) maxRestartAttempts) as [Hge|_];
    [lia |].
  destruct (start_summary rt adv cfg sid (after_backoff sid w))
    as (o & m & w2 & Hstart & Hheap & Hnext & Hmet & Hatt & (evs & Htr & Hb)
        & _ & _ & _ & _ & Hfail).
  rewrite Hstart. unfold after_backoff in Hheap, Hnext, Hmet, Hatt, Htr.
  cbn [heap nextLoc metrics restartAttempts trace log_event set_restartAttempts]
    in Hheap, Hnext, Hmet, Hatt, Htr.
  assert (Hevs : exists evs', trace w2 = (trace w ++ EvTimeout restartDelay :: evs')%list
                              /\ (broadcasts evs' <= 1)%nat).
  { exists evs. split; [|exact Hb]. rewrite Htr, <- app_assoc. reflexivity. }
  assert (Hold : forall l, (l < nextLoc w)%nat -> heap w2 !! l = heap w !! l).
  { intros l Hl. rewrite Hheap. apply lookup_insert_ne. lia. }
  destruct (o_success o) eqn:Hok.
  - rewrite Hmet, lookup_insert_eq.
    exists o, w2. eexists. rewrite Hok.
    split; [reflexivity |]. split; [reflexivity |].
    cbn [heap nextLoc metrics restartAttempts trace set_heap].
    repeat split; try assumption.
    intros l Hl. rewrite lookup_alter_ne by lia. apply Hold, Hl.
  - exists o, w2, w2. rewrite Hok. repeat split; assumption.
Qed.

Lemma current_attempts_raised sid w w' :
  0 <= current_attempts sid w ->
  restartAttempts w' = <[sid := current_attempts sid w + 1]> (restartAttempts w) ->
  current_attempts sid w' = current_attempts sid w + 1.
Proof.
  intros Hnonneg Hatt. unfold current_attempts at 1.
  rewrite Hatt, lookup_insert_eq. unfold truthy_number.
  destruct (Z.eqb_spec (current_attempts sid w + 1) 0); [lia | reflexivity].
Qed.

(** Repeated calls against a driver that always fails: every answer is
    [false], the counter saturates at the maximum, and the number of
    [startBroadcast] invocations stays within what is left of the
    budget. *)
Lemma restart_repeatedly_budget rt adv cfg sid n : forall w,
  always_fails adv ->
  0 <= current_attempts sid w <= maxRestartAttempts ->
  exists w',
    restart_repeatedly rt adv cfg sid n w = (Normal (repeat false n), w')
    /\ current_attempts sid w'
       = Z.min (current_attempts sid w + Z.of_nat n) maxRestartAttempts
    /\ Z.of_nat (broadcasts (trace w')) + current_attempts sid w
       <= Z.of_nat (broadcasts (trace w)) + maxRestartAttempts.
Proof.
  induction n as [|n IH]; intros w Hfail Hrange.
  - exists w. cbn [restart_repeatedly repeat]. unfold ret.
    split; [reflexivity |]. split; lia.
  - cbn [restart_repeatedly repeat]. unfold bind at 1.
    destruct (Z.lt_ge_cases (current_attempts sid w) maxRestartAttempts)
      as [Hbelow | Hreached].
    + destruct (restart_attempt rt adv cfg sid w Hbelow)
        as (o & w2 & w1 & _ & Hrun & Htr & Hatt & _ & _ & _ & (evs & Hevs & Hb) & Hno).
      rewrite Hrun, (Hno Hfail).
      assert (Hcur : current_attempts sid w1 = current_attempts sid w + 1).
      { apply current_attempts_raised; [lia | exact Hatt]. }
      assert (Hrange1 : 0 <= current_attempts sid w1 <= maxRestartAttempts) by lia.
      destruct (IH w1 Hfail Hrange1) as (w' & Hrest & Hcount & Hbudget).
      exists w'. unfold bind, ret. rewrite Hrest.
      split; [reflexivity |]. split; [lia |].
      assert (Hb1 : (broadcasts (trace w1) <= broadcasts (trace w) + 1)%nat).
      { rewrite Htr, Hevs, broadcasts_app.
        change (broadcasts (EvTimeout restartDelay :: evs)) with (broadcasts evs).
        lia. }
      lia.
    + rewrite restart_unfold.
      destruct (Z.geb_spec (current_attempts sid w) maxRestartAttempts) as [_|Hlt];
        [|lia].
      destruct (IH w Hfail Hrange) as (w' & Hrest & Hcount & Hbudget).
      exists w'. unfold bind, ret. rewrite Hrest.
      split; [reflexivity |]. split; lia.
Qed.

(** ** Claims about snapshots *)


Lemma well_formed_rebound sid w w' :
  well_formed w ->
  nextLoc w' = S (nextLoc w) ->
  metrics w' = <[sid := nextLoc w]> (metrics w) ->
  well_formed w'.
Proof.
  intros Hwf Hnext Hmet k l. rewrite Hmet, Hnext, lookup_insert.
  case_decide as Hk.
  - intros [= <-]. lia.
  - intros Hl. apply Hwf in Hl. lia.
Qed.


Lemma well_formed_stop rt adv sid w :
  well_formed w ->
  well_formed (snd (stopAdvertisingWithEnhancements rt adv sid w)).
Proof.
  intros Hwf. step_async.
  destruct (stopBroadcast adv (trace w)); world_simpl; [|exact Hwf].
  destruct (metrics w !! sid); world_simpl; exact Hwf.
Qed.

Lemma well_formed_restart rt adv cfg sid w :
  well_formed w ->
  well_formed (snd (restartAdvertisingIfNeeded rt adv cfg sid w)).
Proof.
  intros Hwf.
  destruct (Z.lt_ge_cases (current_attempts sid w) maxRestartAttempts)
    as [Hbelow | Hreached].
  - destruct (restart_attempt rt adv cfg sid w Hbelow)
      as (o & w2 & w' & _ & Hrun & _ & _ & Hnext & Hmet & _).
    rewrite Hrun. exact (well_formed_rebound sid w w' Hwf Hnext Hmet).
  - rewrite restart_unfold.
    destruct (Z.geb_spec (current_attempts sid w) maxRestartAttempts);
      [exact Hwf | lia].
Qed.

Lemma well_formed_clear sid w :
  well_formed w -> well_formed (snd (clearMetrics sid w)).
Proof.
  intros Hwf k l. unfold clearMetrics, modify. world_simpl.
  intros H. apply lookup_delete_Some in H as [_ H]. exact (Hwf k l H).
Qed.






(** * Further properties of the class *)

(** ** The builders under the validator *)

Lemma length_append (a b : string) :
  String.length (a +:+ b) = (String.length a + String.length b)%nat.
Proof.
  induction a as [|c a IH]; [reflexivity |].
  change (S (String.length (a +:+ b)) = S (String.length a + String.length b)).
  rewrite IH. reflexivity.
Qed.

Lemma valid_true_iff c :
  valid (validateAdvertisingConfig c) = true <-> failed_checks c = [].
Proof.
  rewrite <- errors_are_failed_checks.
  change (valid (validateAdvertisingConfig c))
    with (length (errors (validateAdvertisingConfig c)) =? 0)%nat.
  destruct (errors (validateAdvertisingConfig c)); simpl; split; congruence.
Qed.

Lemma eqb_empty_false s : String.eqb s "" = false <-> s <> "".
Proof. apply String.eqb_neq. Qed.

Lemma isValidUUID_empty : isValidUUID "" = false.
Proof. reflexivity. Qed.

(** X1.  A config built by [createAdvertisingConfig] passes the
    validator exactly when the device name is not empty and the service
    id has the UUID shape: the defaults the builder fills in are all
    within range. *)
Theorem basic_config_valid_iff (name uuid : string) :
  valid (validateAdvertisingConfig (createAdvertisingConfig name uuid)) = true
  <-> name <> "" /\ uuid_shape uuid.
Proof.
  rewrite valid_true_iff, <- isValidUUID_shape, <- eqb_empty_false.
  unfold failed_checks, checks, createAdvertisingConfig.
  cbn [List.filter fst snd deviceName serviceUUID txPowerLevel advertiseMode
       interval payload].
  simplify_checks.
  destruct (String.eqb_spec uuid "") as [-> | Hu].
  - rewrite isValidUUID_empty. destruct (String.eqb name ""); cbn;
      split; try discriminate; intros [_ H]; discriminate H.
  - destruct (String.eqb name ""), (isValidUUID uuid); cbn;
      split; try discriminate; try (intros [H1 H2]; discriminate);
      intros _; split; reflexivity.
Qed.

(** X2.  A config built by [createPaymentAdvertisingConfig] passes the
    validator exactly when the device name is not empty, the service id
    has the UUID shape, and the payload carries a non-empty wallet
    address and a non-zero timestamp. *)
Theorem payment_config_valid_iff
    (stringify : BLEPaymentPayload -> string) (name uuid : string)
    (p : BLEPaymentPayload) :
  valid (validateAdvertisingConfig
           (createPaymentAdvertisingConfig stringify name uuid p)) = true
  <-> name <> "" /\ uuid_shape uuid /\ walletAddress p <> "" /\ timestamp p <> 0.
Proof.
  rewrite valid_true_iff, <- isValidUUID_shape, <- !eqb_empty_false,
    <- Z.eqb_neq.
  unfold failed_checks, checks, createPaymentAdvertisingConfig.
  cbn [List.filter fst snd deviceName serviceUUID txPowerLevel advertiseMode
       interval payload].
  simplify_checks.
  destruct (String.eqb_spec uuid "") as [-> | Hu].
  - rewrite isValidUUID_empty.
    destruct (String.eqb name ""), (String.eqb (walletAddress p) ""),
      (timestamp p =? 0); cbn; split; try discriminate;
      intros (_ & H & _); discriminate H.
  - destruct (String.eqb name ""), (isValidUUID uuid),
      (String.eqb (walletAddress p) ""), (timestamp p =? 0); cbn;
      split; try discriminate;
      try (intros (H1 & H2 & H3 & H4); discriminate);
      intros _; repeat split; reflexivity.
Qed.

(** X3.  The format check of the service id is not guarded by the
    presence check: a config reports "Service UUID is required" exactly
    when its service id is empty, and then it reports "Invalid service
    UUID format" as well. *)
Theorem missing_uuid_reported_twice (c : AdvertisingConfig) :
  (In MSG_UUID_REQUIRED (errors (validateAdvertisingConfig c))
   <-> serviceUUID c = "")
  /\ (In MSG_UUID_REQUIRED (errors (validateAdvertisingConfig c)) ->
      In MSG_UUID_FORMAT (errors (validateAdvertisingConfig c))).
Proof.
  rewrite errors_are_failed_checks.
  assert (Hreq : In MSG_UUID_REQUIRED (failed_checks c) <-> serviceUUID c = "").
  { split.
    - intros H. by_rule H. cbn [fst] in Hc. apply String.eqb_eq. exact Hc.
    - intros H. apply in_failed_checks.
      eexists (_, MSG_UUID_REQUIRED).
      split; [unfold checks; cbn [In]; right; left; reflexivity |].
      split; [|reflexivity]. cbn [fst]. rewrite H. reflexivity. }
  split; [exact Hreq |].
  intros H. apply Hreq in H. apply in_failed_checks.
  exists (fun c => negb (isValidUUID (serviceUUID c)), MSG_UUID_FORMAT).
  split; [unfold checks; cbn [In]; auto |]. split; [|reflexivity].
  cbn [fst]. rewrite H. reflexivity.
Qed.

Lemma missing_uuid_reported_twice_witness :
  In MSG_UUID_FORMAT
     (errors (validateAdvertisingConfig (createAdvertisingConfig "Alice-Phone" ""))).
Proof.
  apply (missing_uuid_reported_twice (createAdvertisingConfig "Alice-Phone" "")).
  apply (missing_uuid_reported_twice (createAdvertisingConfig "Alice-Phone" "")).
  reflexivity.
Defined.

(** X4.  Every service id that [isValidUUID] accepts is 36 characters
    long. *)
Theorem valid_uuid_has_36_characters (s : string) :
  isValidUUID s = true -> String.length s = 36%nat.
Proof.
  intros H. apply isValidUUID_shape in H
    as (g1 & g2 & g3 & g4 & g5 & -> & [H1 _] & [H2 _] & [H3 _] & [H4 _] & [H5 _]).
  rewrite !length_append, H1, H2, H3, H4, H5. reflexivity.
Qed.

Lemma valid_uuid_has_36_characters_witness :
  String.length sample_uuid = 36%nat.
Proof.
  apply valid_uuid_has_36_characters. reflexivity.
Defined.

Lemma NoDup_map_filter {A B} (f : A -> B) (p : A -> bool) (l : list A) :
  List.NoDup (map f l) -> List.NoDup (map f (List.filter p l)).
Proof.
  induction l as [|a l IH]; intros Hnd; [exact Hnd |].
  apply NoDup_cons_iff in Hnd as [Hnotin Hnd]. cbn [List.filter].
  destruct (p a); [|exact (IH Hnd)].
  cbn [map]. apply NoDup_cons_iff. split; [|exact (IH Hnd)].
  intros Hin. apply Hnotin. apply in_map_iff in Hin as (x & Hx & Hin).
  apply filter_In in Hin as [Hin _]. apply in_map_iff. eauto.
Qed.

(** X5.  The validator never repeats a message: its error list is free
    of duplicates and holds at most eight messages, at most six when the
    config has no payload. *)
Theorem validation_errors_distinct (c : AdvertisingConfig) :
  List.NoDup (errors (validateAdvertisingConfig c))
  /\ (length (errors (validateAdvertisingConfig c)) <= 8)%nat
  /\ (payload c = None ->
      (length (errors (validateAdvertisingConfig c)) <= 6)%nat).
Proof.
  rewrite errors_are_failed_checks. unfold failed_checks. split; [|split].
  - apply NoDup_map_filter. unfold checks. cbn [map snd].
    repeat (apply NoDup_cons_iff; split;
            [cbn [In]; intros H; repeat (destruct H as [H | H]; try discriminate H);
             exact H |]).
    apply List.NoDup_nil.
  - rewrite length_map.
    etransitivity; [apply List.filter_length_le |]. reflexivity.
  - intros Hnone. rewrite length_map. unfold checks. cbn [List.filter fst].
    rewrite Hnone.
    repeat match goal with
           | |- context [if ?b then _ else _] => destruct b
           end; cbn [length]; lia.
Qed.

Lemma validation_errors_distinct_witness :
  (length (errors (validateAdvertisingConfig nameless_loud_config)) <= 6)%nat.
Proof.
  apply (validation_errors_distinct nameless_loud_config). reflexivity.
Defined.

(** ** What each method does to the world *)

Lemma start_effect rt adv cfg sid w :
  exists o pt evs w',
    startAdvertisingWithEnhancements rt adv cfg sid w = (Normal o, w')
    /\ heap w' = <[nextLoc w := recorded (Date_now rt (trace w)) o pt]> (heap w)
    /\ nextLoc w' = S (nextLoc w)
    /\ metrics w' = <[sid := nextLoc w]> (metrics w)
    /\ restartAttempts w' = restartAttempts w
    /\ trace w' = (trace w ++ EvNow (Date_now rt (trace w)) :: evs)%list
    /\ (o = succeeded /\ pt = Some (bool_decide (is_Some (payload cfg)))
        \/ exists e, o = failed e /\ pt = None)
    /\ (if valid (validateAdvertisingConfig cfg)
           && String.eqb (Platform_OS rt) "android"
        then
          trace w'
          = (fst (advertising_message rt cfg
                    (trace w ++ [EvNow (Date_now rt (trace w))]))
             ++ [EvStartBroadcast
                   (snd (advertising_message rt cfg
                           (trace w ++ [EvNow (Date_now rt (trace w))])))])%list
          /\ o = outcome_of
                   (startBroadcast adv
                      (fst (advertising_message rt cfg
                              (trace w ++ [EvNow (Date_now rt (trace w))])))
                      (snd (advertising_message rt cfg
                              (trace w ++ [EvNow (Date_now rt (trace w))]))))
        else
          evs = []
          /\ o = failed
                   (if valid (validateAdvertisingConfig cfg) then MSG_PLATFORM
                    else MSG_INVALID_PREFIX
                         +:+ join ", " (errors (validateAdvertisingConfig cfg)))).
Proof.
  step_async. unfold advertising_message.
  destruct (valid (validateAdvertisingConfig cfg)); cbn [negb andb].
  2: { eexists (failed _), None, [], _. split; [reflexivity |]. world_simpl.
       repeat split; try reflexivity. right. eauto. }
  destruct (String.eqb (Platform_OS rt) "android"); cbn [negb].
  2: { eexists (failed _), None, [], _. split; [reflexivity |]. world_simpl.
       repeat split; try reflexivity. right. eauto. }
  destruct (payload cfg) as [p|]; world_simpl.
  - destruct (startBroadcast adv _ _) as [[|]|e]; world_simpl.
    + eexists succeeded, _, [_], _. split; [reflexivity |]. world_simpl.
      repeat split; try reflexivity; [rewrite <- app_assoc; reflexivity |].
      left. split; reflexivity.
    + eexists (failed _), None, [_], _. split; [reflexivity |]. world_simpl.
      repeat split; try reflexivity; [rewrite <- app_assoc; reflexivity |].
      right. eauto.
    + eexists (failed _), None, [_], _. split; [reflexivity |]. world_simpl.
      repeat split; try reflexivity; [rewrite <- app_assoc; reflexivity |].
      right. eauto.
  - destruct (startBroadcast adv _ _) as [[|]|e]; world_simpl.
    + eexists succeeded, _, [_; _], _. split; [reflexivity |]. world_simpl.
      repeat split; try reflexivity; [rewrite <- !app_assoc; reflexivity |].
      left. split; reflexivity.
    + eexists (failed _), None, [_; _], _. split; [reflexivity |]. world_simpl.
      repeat split; try reflexivity; [rewrite <- !app_assoc; reflexivity |].
      right. eauto.
    + eexists (failed _), None, [_; _], _. split; [reflexivity |]. world_simpl.
      repeat split; try reflexivity; [rewrite <- !app_assoc; reflexivity |].
      right. eauto.
Qed.

Lemma startPayment_effect rt adv p sid w :
  exists o pt evs w',
    startPaymentAdvertising rt adv p sid w = (Normal o, w')
    /\ heap w' = <[nextLoc w := recorded (Date_now rt (trace w)) o pt]> (heap w)
    /\ nextLoc w' = S (nextLoc w)
    /\ metrics w' = <[sid := nextLoc w]> (metrics w)
    /\ restartAttempts w' = restartAttempts w
    /\ trace w' = (trace w ++ EvNow (Date_now rt (trace w)) :: evs)%list
    /\ (o = succeeded /\ pt = Some true \/ exists e, o = failed e /\ pt = None)
    /\ (if String.eqb (Platform_OS rt) "android"
        then
          evs = [EvStartBroadcast (stringify_payload rt p)]
          /\ o = outcome_of
                   (startBroadcast adv
                      (trace w ++ [EvNow (Date_now rt (trace w))])
                      (stringify_payload rt p))
        else evs = [] /\ o = failed MSG_PLATFORM).
Proof.
  unfold startPaymentAdvertising. step_async.
  destruct (String.eqb (Platform_OS rt) "android"); cbn [negb].
  2: { eexists (failed _), None, [], _. split; [reflexivity |]. world_simpl.
       repeat split; try reflexivity. right. eauto. }
  destruct (startBroadcast adv _ _) as [[|]|e]; world_simpl.
  - eexists succeeded, _, [_], _. split; [reflexivity |]. world_simpl.
    repeat split; try reflexivity; [rewrite <- app_assoc; reflexivity |].
    left. split; reflexivity.
  - eexists (failed _), None, [_], _. split; [reflexivity |]. world_simpl.
    repeat split; try reflexivity; [rewrite <- app_assoc; reflexivity |].
    right. eauto.
  - eexists (failed _), None, [_], _. split; [reflexivity |]. world_simpl.
    repeat split; try reflexivity; [rewrite <- app_assoc; reflexivity |].
    right. eauto.
Qed.

(** [stop] in full: a rejection only leaves its mark on the trace; a
    resolution, whatever its value, stamps the record of the session if
    there is one and drops the restart counter. *)
Lemma stop_effect rt adv sid w :
  stopAdvertisingWithEnhancements rt adv sid w =
  match stopBroadcast adv (trace w) with
  | Rejects e =>
      (Normal (failed (error_text e)), log_event EvStopBroadcast w)
  | Resolves _ =>
      match metrics w !! sid with
      | Some l =>
          let t := Date_now rt (trace w ++ [EvStopBroadcast]) in
          (Normal succeeded,
           {| heap := alter (mark_stopped t) l (heap w);
              nextLoc := nextLoc w;
              metrics := metrics w;
              restartAttempts := delete sid (restartAttempts w);
              trace := (trace w ++ [EvStopBroadcast]) ++ [EvNow t] |})
      | None =>
          (Normal succeeded,
           {| heap := heap w;
              nextLoc := nextLoc w;
              metrics := metrics w;
              restartAttempts := delete sid (restartAttempts w);
              trace := trace w ++ [EvStopBroadcast] |})
      end
  end.
Proof.
  step_async. destruct (stopBroadcast adv (trace w)) as [b|e]; [|reflexivity].
  world_simpl. destruct (metrics w !! sid); reflexivity.
Qed.

(** [restartIfNeeded] below its budget, in full. *)
Lemma restart_effect rt adv cfg sid w :
  current_attempts sid w < maxRestartAttempts ->
  exists o pt evs w',
    restartAdvertisingIfNeeded rt adv cfg sid w = (Normal (o_success o), w')
    /\ heap w'
       = <[nextLoc w :=
             (if o_success o then increment_restart else id)
               (recorded (Date_now rt (trace (after_backoff sid w))) o pt)]>
           (heap w)
    /\ nextLoc w' = S (nextLoc w)
    /\ metrics w' = <[sid := nextLoc w]> (metrics w)
    /\ restartAttempts w'
       = <[sid := current_attempts sid w + 1]> (restartAttempts w)
    /\ trace w'
       = (trace (after_backoff sid w)
          ++ EvNow (Date_now rt (trace (after_backoff sid w))) :: evs)%list
    /\ (o = succeeded /\ pt = Some (bool_decide (is_Some (payload cfg)))
        \/ exists e, o = failed e /\ pt = None)
    /\ (valid (validateAdvertisingConfig cfg)
        && String.eqb (Platform_OS rt) "android" = false -> evs = []).
Proof.
  intros Hbelow. rewrite restart_unfold.
  destruct (Z.geb_spec (current_attempts sid w) maxRestartAttempts) as [Hge|_];
    [lia |].
  destruct (start_effect rt adv cfg sid (after_backoff sid w))
    as (o & pt & evs & w2 & Hstart & Hheap & Hnext & Hmet & Hatt & Htr & Hcase
        & Hguard).
  rewrite Hstart.
  assert (Hevs : valid (validateAdvertisingConfig cfg)
                 && String.eqb (Platform_OS rt) "android" = false -> evs = []).
  { intros Hoff. rewrite Hoff in Hguard. apply Hguard. }
  destruct w2 as [h2 n2 m2 r2 t2].
  unfold after_backoff in Hheap, Hnext, Hmet, Hatt.
  cbn [heap nextLoc metrics restartAttempts trace log_event set_restartAttempts]
    in Hheap, Hnext, Hmet, Hatt, Htr. subst h2 n2 m2 r2.
  exists o, pt, evs.
  destruct (o_success o) eqn:Hok.
  - cbn [metrics]. rewrite lookup_insert_eq. eexists.
    split; [reflexivity |]. world_simpl.
    split; [apply alter_insert_eq |].
    repeat split; try reflexivity; assumption.
  - eexists. split; [reflexivity |]. world_simpl.
    repeat split; try reflexivity; assumption.
Qed.

(** ** The claim about [restartIfNeeded] *)

Lemma broadcasts_snoc_now tr t :
  broadcasts (tr ++ [EvNow t]) = broadcasts tr.
Proof. rewrite broadcasts_app. cbn. lia. Qed.

(** One call below the budget, tied to the [start] it runs: the world
    [start] is run in, the world it leaves, and what [restartIfNeeded]
    makes of both. *)
Lemma restart_attempt_full rt adv cfg sid w :
  current_attempts sid w < maxRestartAttempts ->
  exists o pt evs w2,
    startAdvertisingWithEnhancements rt adv cfg sid (after_backoff sid w)
      = (Normal o, w2)
    /\ restartAdvertisingIfNeeded rt adv cfg sid w
       = (Normal (o_success o),
          if o_success o then
            match metrics w2 !! sid with
            | Some l => set_heap (alter increment_restart l (heap w2)) w2
            | None => w2
            end
          else w2)
    /\ trace w2
       = (trace w
          ++ EvTimeout 2000
             :: EvNow (Date_now rt (trace w ++ [EvTimeout 2000])) :: evs)%list
    /\ (if valid (validateAdvertisingConfig cfg)
           && String.eqb (Platform_OS rt) "android"
        then broadcasts evs = 1%nat else evs = [])
    /\ restartAttempts w2
       = <[sid := current_attempts sid w + 1]> (restartAttempts w)
    /\ metrics w2 !! sid = Some (nextLoc w)
    /\ heap w2 !! nextLoc w
       = Some (recorded (Date_now rt (trace w ++ [EvTimeout 2000])) o pt)
    /\ (always_fails adv -> o_success o = false).
Proof.
  intros Hbelow. rewrite restart_unfold.
  destruct (Z.geb_spec (current_attempts sid w) maxRestartAttempts) as [Hge|_];
    [lia |].
  destruct (start_effect rt adv cfg sid (after_backoff sid w))
    as (o & pt & evs & w2 & Hstart & Hheap & _ & Hmet & Hatt & Htr & Hcase
        & Hguard).
  rewrite Hstart.
  change (trace (after_backoff sid w)) with (trace w ++ [EvTimeout 2000])%list
    in Htr, Hguard, Hheap.
  change (nextLoc (after_backoff sid w)) with (nextLoc w) in Hheap, Hmet.
  change (restartAttempts (after_backoff sid w))
    with (<[sid := current_attempts sid w + 1]> (restartAttempts w)) in Hatt.
  exists o, pt, evs, w2.
  split; [reflexivity |].
  split; [destruct (o_success o); [destruct (metrics w2 !! sid) |]; reflexivity |].
  split; [rewrite Htr, <- app_assoc; reflexivity |].
  split; [|split; [exact Hatt |
           split; [rewrite Hmet; apply lookup_insert_eq |
           split; [rewrite Hheap; apply lookup_insert_eq |]]]].
  - destruct (valid (validateAdvertisingConfig cfg)
              && String.eqb (Platform_OS rt) "android");
      [|exact (proj1 Hguard)].
    destruct Hguard as [Hcall _]. rewrite Htr in Hcall.
    unfold advertising_message in Hcall.
    destruct (payload cfg); cbn [fst snd] in Hcall;
      rewrite <- ?app_assoc in Hcall; apply app_inv_head in Hcall;
      cbn [app] in Hcall; injection Hcall as ->; reflexivity.
  - intros Hfail.
    destruct (valid (validateAdvertisingConfig cfg)
              && String.eqb (Platform_OS rt) "android");
      destruct Hguard as [_ ->]; [|reflexivity].
    destruct (startBroadcast adv _ _) as [[|]|e] eqn:Hdrv; [|reflexivity..].
    exfalso. exact (Hfail _ _ Hdrv).
Qed.

(** Against a driver that always fails, with a valid config on Android,
    every call below the budget invokes [startBroadcast] once, so [n]
    calls invoke it as many times as the budget still allows. *)
Lemma restart_repeatedly_exact rt adv cfg sid n : forall w,
  always_fails adv ->
  valid (validateAdvertisingConfig cfg) && String.eqb (Platform_OS rt) "android"
    = true ->
  0 <= current_attempts sid w <= maxRestartAttempts ->
  Z.of_nat (broadcasts (trace (snd (restart_repeatedly rt adv cfg sid n w))))
  = Z.of_nat (broadcasts (trace w))
    + Z.min (current_attempts sid w + Z.of_nat n) maxRestartAttempts
    - current_attempts sid w.
Proof.
  induction n as [|n IH]; intros w Hfail Hon Hrange.
  - cbn [restart_repeatedly]. unfold ret. cbn [snd]. lia.
  - cbn [restart_repeatedly]. unfold bind at 1.
    destruct (Z.lt_ge_cases (current_attempts sid w) maxRestartAttempts)
      as [Hbelow | Hreached].
    + destruct (restart_attempt_full rt adv cfg sid w Hbelow)
        as (o & pt & evs & w2 & _ & Hrun & Htr & Hevs & Hatt & _ & _ & Hno).
      rewrite Hrun, (Hno Hfail). rewrite Hon in Hevs.
      assert (Hcur : current_attempts sid w2 = current_attempts sid w + 1).
      { apply current_attempts_raised; [lia | exact Hatt]. }
      assert (Hrange2 : 0 <= current_attempts sid w2 <= maxRestartAttempts) by lia.
      specialize (IH w2 Hfail Hon Hrange2).
      assert (Hb : broadcasts (trace w2) = S (broadcasts (trace w))).
      { rewrite Htr, broadcasts_app.
        change (broadcasts (EvTimeout 2000 :: EvNow
                  (Date_now rt (trace w ++ [EvTimeout 2000])) :: evs))
          with (broadcasts evs). lia. }
      unfold bind, ret.
      destruct (restart_repeatedly rt adv cfg sid n w2) as [[bs|e] w3];
        cbn [snd] in IH |- *; lia.
    + rewrite restart_unfold.
      destruct (Z.geb_spec (current_attempts sid w) maxRestartAttempts) as [_|Hlt];
        [|lia].
      specialize (IH w Hfail Hon Hrange).
      unfold bind, ret.
      destruct (restart_repeatedly rt adv cfg sid n w) as [[bs|e] w3];
        cbn [snd] in IH |- *; lia.
Qed.

(** C5.  [restartAdvertisingIfNeeded] reads the restart-attempt count of
    the session, 0 when there is none.  Once the count has reached 3 it
    returns [false] and touches nothing.  Below 3 it stores the count
    plus one, waits 2000 ms and runs [start] in the world so reached:
    the world it leaves is the one [start] leaves, with the restart
    count of the session's record raised when [start] succeeded, and its
    answer is the success flag of that [start].  Against a driver that
    always fails, however many times it is called for a session without
    a counter, every call returns [false], the count stops at 3 and
    [startBroadcast] is invoked at most 3 times: exactly [min n 3] times
    in [n] calls with a valid config on Android. *)
Theorem restart_within_budget rt adv cfg sid w :
  (restartAttempts w !! sid = None -> current_attempts sid w = 0)
  /\ (3 <= current_attempts sid w ->
      restartAdvertisingIfNeeded rt adv cfg sid w = (Normal false, w))
  /\ (current_attempts sid w < 3 ->
      exists o pt w2 evs,
        startAdvertisingWithEnhancements rt adv cfg sid
          {| heap := heap w;
             nextLoc := nextLoc w;
             metrics := metrics w;
             restartAttempts :=
               <[sid := current_attempts sid w + 1]> (restartAttempts w);
             trace := trace w ++ [EvTimeout 2000] |}
          = (Normal o, w2)
        /\ restartAdvertisingIfNeeded rt adv cfg sid w
           = (Normal (o_success o),
              if o_success o then
                match metrics w2 !! sid with
                | Some l => set_heap (alter increment_restart l (heap w2)) w2
                | None => w2
                end
              else w2)
        /\ fst (restartAdvertisingIfNeeded rt adv cfg sid w)
           = Normal (o_success o)
        /\ trace (snd (restartAdvertisingIfNeeded rt adv cfg sid w))
           = (trace w
              ++ EvTimeout 2000
                 :: EvNow (Date_now rt (trace w ++ [EvTimeout 2000]))
                 :: evs)%list
        /\ (broadcasts evs <= 1)%nat
        /\ (if valid (validateAdvertisingConfig cfg)
               && String.eqb (Platform_OS rt) "android"
            then broadcasts evs = 1%nat else evs = [])
        /\ restartAttempts (snd (restartAdvertisingIfNeeded rt adv cfg sid w))
           = <[sid := current_attempts sid w + 1]> (restartAttempts w)
        /\ read_through
             (metrics (snd (restartAdvertisingIfNeeded rt adv cfg sid w)))
             (snd (restartAdvertisingIfNeeded rt adv cfg sid w)) sid
           = Some ((if o_success o then increment_restart else id)
                     (recorded (Date_now rt (trace w ++ [EvTimeout 2000])) o pt)))
  /\ (always_fails adv -> restartAttempts w !! sid = None ->
      forall n,
        fst (restart_repeatedly rt adv cfg sid n w) = Normal (repeat false n)
        /\ (broadcasts (trace (snd (restart_repeatedly rt adv cfg sid n w)))
            <= broadcasts (trace w) + 3)%nat
        /\ current_attempts sid (snd (restart_repeatedly rt adv cfg sid n w))
           = Z.min (Z.of_nat n) 3
        /\ (valid (validateAdvertisingConfig cfg)
            && String.eqb (Platform_OS rt) "android" = true ->
            broadcasts (trace (snd (restart_repeatedly rt adv cfg sid n w)))
            = (broadcasts (trace w) + Nat.min n 3)%nat)).
Proof.
  assert (Hnone : restartAttempts w !! sid = None -> current_attempts sid w = 0).
  { intros H. unfold current_attempts. rewrite H. reflexivity. }
  split; [exact Hnone |]. split; [|split].
  - intros Hreached. rewrite restart_unfold.
    destruct (Z.geb_spec (current_attempts sid w) maxRestartAttempts) as [_|Hlt];
      [reflexivity | unfold maxRestartAttempts in Hlt; lia].
  - intros Hbelow.
    destruct (restart_attempt_full rt adv cfg sid w Hbelow)
      as (o & pt & evs & w2 & Hstart & Hrun & Htr & Hevs & Hatt & Hmet & Hheap & _).
    exists o, pt, w2, evs. rewrite Hrun. cbn [fst snd].
    split; [exact Hstart |]. split; [reflexivity |]. split; [reflexivity |].
    assert (Hone : (broadcasts evs <= 1)%nat).
    { destruct (valid (validateAdvertisingConfig cfg)
                && String.eqb (Platform_OS rt) "android");
        [rewrite Hevs; lia | rewrite Hevs; cbn; lia]. }
    rewrite Hmet. unfold read_through, deref.
    destruct (o_success o); cbn [trace restartAttempts metrics heap set_heap];
      rewrite Hmet; cbn [mbind option_bind].
    + rewrite lookup_alter_eq, Hheap. repeat split; assumption.
    + rewrite Hheap. repeat split; assumption.
  - intros Hfail Habsent n. specialize (Hnone Habsent).
    destruct (restart_repeatedly_budget rt adv cfg sid n w Hfail)
      as (w' & Hrun & Hcount & Hbudget).
    { unfold maxRestartAttempts. lia. }
    assert (Hexact := restart_repeatedly_exact rt adv cfg sid n w Hfail).
    rewrite Hrun in Hexact |- *. cbn [fst snd] in Hexact |- *.
    unfold maxRestartAttempts in *.
    split; [reflexivity |]. split; [lia |].
    split; [rewrite Hcount, Hnone; reflexivity |].
    intros Hon. specialize (Hexact Hon). lia.
Qed.

Lemma declining_driver_always_fails : always_fails declining_driver.
Proof. intros tr data. discriminate. Defined.

Lemma restart_within_budget_witness :
  fst (restart_repeatedly android_runtime declining_driver sample_config
         "session-1" 5 new_world)
  = Normal [false; false; false; false; false]
  /\ (broadcasts (trace (snd (restart_repeatedly android_runtime declining_driver
                                sample_config "session-1" 5 new_world)))
      <= broadcasts (trace new_world) + 3)%nat
  /\ current_attempts "session-1"
       (snd (restart_repeatedly android_runtime declining_driver
               sample_config "session-1" 5 new_world)) = 3
  /\ broadcasts (trace (snd (restart_repeatedly android_runtime declining_driver
                               sample_config "session-1" 5 new_world)))
     = 3%nat.
Proof.
  destruct (restart_within_budget android_runtime declining_driver sample_config
              "session-1" new_world) as (_ & _ & _ & H).
  destruct (H declining_driver_always_fails eq_refl 5%nat)
    as (H1 & H2 & H3 & H4).
  split; [exact H1 |]. split; [exact H2 |]. split; [exact H3 |].
  exact (H4 eq_refl).
Defined.

(** ** The invariant of an instance *)

Lemma record_sane_recorded t o pt :
  (exists b, o = succeeded /\ pt = Some b) \/ (exists e, o = failed e /\ pt = None) ->
  record_sane (recorded t o pt).
Proof.
  intros [(b & -> & ->) | (e & -> & ->)]; unfold record_sane, recorded; cbn.
  - repeat split; auto; discriminate.
  - destruct (truthy_string e); repeat split; auto; discriminate.
Qed.

Lemma record_sane_incremented t pt :
  record_sane (increment_restart (recorded t succeeded pt)).
Proof.
  unfold record_sane, increment_restart, recorded; cbn.
  repeat split; auto; discriminate.
Qed.

Lemma record_sane_stopped t m :
  record_sane m -> record_sane (mark_stopped t m).
Proof.
  intros (He & Hr & Hs & Hf & _). unfold record_sane, mark_stopped; cbn.
  repeat split; auto; apply Hf; assumption.
Qed.

Lemma consistent_well_formed w : consistent w -> well_formed w.
Proof.
  intros (Hlive & _ & Hheap & _) k l Hk.
  destruct (Hlive k l Hk) as [m Hm]. exact (proj1 (Hheap l m Hm)).
Qed.

Lemma consistent_new : consistent new_world.
Proof.
  unfold consistent, new_world. cbn [heap metrics restartAttempts nextLoc].
  split; [|split; [|split]]; intros *; rewrite lookup_empty; discriminate.
Qed.

(** A method that allocates one sane record, binds the session to it and
    at most sets the session's restart counter keeps the invariant. *)
Lemma consistent_rebound sid r w w' :
  consistent w ->
  record_sane r ->
  heap w' = <[nextLoc w := r]> (heap w) ->
  nextLoc w' = S (nextLoc w) ->
  metrics w' = <[sid := nextLoc w]> (metrics w) ->
  (restartAttempts w' = restartAttempts w
   \/ exists n, 1 <= n <= maxRestartAttempts
                /\ restartAttempts w' = <[sid := n]> (restartAttempts w)) ->
  consistent w'.
Proof.
  intros (Hlive & Hinj & Hheap & Hatt) Hr Hh Hn Hm Ha.
  assert (Hold : forall k l, metrics w !! k = Some l -> l <> nextLoc w).
  { intros k l Hk ->. destruct (Hlive _ _ Hk) as [m Hl].
    apply Hheap in Hl as [Hl _]. lia. }
  unfold consistent. rewrite Hh, Hn, Hm. split; [|split; [|split]].
  - intros k l. rewrite lookup_insert. case_decide as Hk.
    + intros [= <-]. rewrite lookup_insert_eq. eauto.
    + intros Hl. rewrite lookup_insert_ne by (apply not_eq_sym, (Hold k l Hl)).
      exact (Hlive k l Hl).
  - intros k1 k2 l. rewrite !lookup_insert.
    case_decide as H1; case_decide as H2; subst.
    + reflexivity.
    + intros [= <-] Hl. exfalso. exact (Hold _ _ Hl eq_refl).
    + intros Hl [= <-]. exfalso. exact (Hold _ _ Hl eq_refl).
    + apply Hinj.
  - intros l m. rewrite lookup_insert. case_decide as Hl.
    + intros [= <-]. split; [lia | exact Hr].
    + intros H. apply Hheap in H as [H Hs]. split; [lia | exact Hs].
  - intros k n. destruct Ha as [-> | (n' & Hrange & ->)]; [apply Hatt |].
    rewrite lookup_insert. case_decide.
    + intros [= <-]. exact Hrange.
    + apply Hatt.
Qed.

Lemma current_attempts_range sid w :
  consistent w -> 0 <= current_attempts sid w <= maxRestartAttempts.
Proof.
  intros (_ & _ & _ & Hatt). unfold current_attempts.
  destruct (restartAttempts w !! sid) as [n|] eqn:Hn;
    [|unfold maxRestartAttempts; lia].
  apply Hatt in Hn. unfold truthy_number.
  destruct (Z.eqb_spec n 0); cbn; lia.
Qed.

Lemma consistent_start rt adv cfg sid w :
  consistent w ->
  consistent (snd (startAdvertisingWithEnhancements rt adv cfg sid w)).
Proof.
  intros Hw.
  destruct (start_effect rt adv cfg sid w)
    as (o & pt & evs & w' & Hrun & Hh & Hn & Hm & Ha & _ & Hcase & _).
  rewrite Hrun. apply (consistent_rebound sid _ w w' Hw) with (3 := Hn) (2 := Hh);
    auto.
  apply record_sane_recorded.
  destruct Hcase as [[-> ->] | (e & -> & ->)]; eauto.
Qed.

Lemma consistent_startPayment rt adv p sid w :
  consistent w ->
  consistent (snd (startPaymentAdvertising rt adv p sid w)).
Proof.
  intros Hw.
  destruct (startPayment_effect rt adv p sid w)
    as (o & pt & evs & w' & Hrun & Hh & Hn & Hm & Ha & _ & Hcase & _).
  rewrite Hrun. apply (consistent_rebound sid _ w w' Hw) with (3 := Hn) (2 := Hh);
    auto.
  apply record_sane_recorded.
  destruct Hcase as [[-> ->] | (e & -> & ->)]; eauto.
Qed.

Lemma consistent_restart rt adv cfg sid w :
  consistent w ->
  consistent (snd (restartAdvertisingIfNeeded rt adv cfg sid w)).
Proof.
  intros Hw.
  destruct (Z.lt_ge_cases (current_attempts sid w) maxRestartAttempts)
    as [Hbelow | Hreached].
  - destruct (restart_effect rt adv cfg sid w Hbelow)
      as (o & pt & evs & w' & Hrun & Hh & Hn & Hm & Ha & _ & Hcase & _).
    rewrite Hrun.
    apply (consistent_rebound sid _ w w' Hw) with (3 := Hn) (2 := Hh); auto.
    + destruct Hcase as [[-> ->] | (e & -> & ->)]; cbn [o_success succeeded failed].
      * apply record_sane_incremented.
      * apply record_sane_recorded. eauto.
    + right. exists (current_attempts sid w + 1). split; [|exact Ha].
      pose proof (current_attempts_range sid w Hw). lia.
  - rewrite restart_unfold.
    destruct (Z.geb_spec (current_attempts sid w) maxRestartAttempts);
      [exact Hw | lia].
Qed.

Lemma consistent_stop rt adv sid w :
  consistent w ->
  consistent (snd (stopAdvertisingWithEnhancements rt adv sid w)).
Proof.
  intros (Hlive & Hinj & Hheap & Hatt). rewrite stop_effect.
  destruct (stopBroadcast adv (trace w)) as [b|e];
    [|unfold consistent; world_simpl; auto].
  assert (Hdel : forall k n,
    delete sid (restartAttempts w) !! k = Some n -> 1 <= n <= maxRestartAttempts).
  { intros k n H. apply lookup_delete_Some in H as [_ H]. exact (Hatt k n H). }
  destruct (metrics w !! sid) as [l0|]; cbn [snd]; unfold consistent;
    cbn [heap nextLoc metrics restartAttempts]; [|auto].
  split; [|split; [|split]]; [| exact Hinj | | exact Hdel].
  - intros k l Hk. rewrite lookup_alter. case_decide; subst.
    + destruct (Hlive k l Hk) as [m ->]. eauto.
    + exact (Hlive k l Hk).
  - intros l m. rewrite lookup_alter. case_decide; subst; [|apply Hheap].
    destruct (heap w !! l) as [m0|] eqn:Hl; [|discriminate].
    intros [= <-]. destruct (Hheap l m0 Hl) as [Hlt Hs].
    split; [exact Hlt | apply record_sane_stopped, Hs].
Qed.

Lemma consistent_clear sid w :
  consistent w -> consistent (snd (clearMetrics sid w)).
Proof.
  intros (Hlive & Hinj & Hheap & Hatt). unfold clearMetrics, modify, consistent.
  world_simpl. split; [|split; [|split]]; [| | exact Hheap |].
  - intros k l H. apply lookup_delete_Some in H as [_ H]. exact (Hlive k l H).
  - intros k1 k2 l H1 H2. apply lookup_delete_Some in H1 as [_ H1].
    apply lookup_delete_Some in H2 as [_ H2]. exact (Hinj k1 k2 l H1 H2).
  - intros k n H. apply lookup_delete_Some in H as [_ H]. apply (Hatt k n H).
Qed.

Lemma consistent_clearAll w :
  consistent w -> consistent (snd (clearAllMetrics w)).
Proof.
  intros (Hlive & Hinj & Hheap & Hatt). unfold clearAllMetrics, modify, consistent.
  world_simpl.
  split; [|split; [|split]]; try (intros *; rewrite lookup_empty; discriminate).
  exact Hheap.
Qed.

Lemma consistent_perform rt w c :
  consistent w -> consistent (perform rt w c).
Proof.
  destruct c; cbn [perform];
    auto using consistent_start, consistent_startPayment, consistent_stop,
      consistent_restart, consistent_clear, consistent_clearAll.
Qed.

Lemma consistent_run rt calls : forall w,
  consistent w -> consistent (run_calls rt calls w).
Proof.
  induction calls as [|c calls IH]; intros w Hw; [exact Hw |].
  apply IH, consistent_perform, Hw.
Qed.

(** ** Further properties of [start] and [startPaymentAdvertising] *)

Lemma driver_calls_snoc_now tr t :
  driver_calls (tr ++ [EvNow t]) = driver_calls tr.
Proof. rewrite driver_calls_app. apply app_nil_r. Qed.

(** X6.  On Android with a valid config, [start] invokes
    [startBroadcast] exactly once, with the serialised payload when the
    config has one and otherwise with the descriptor stamped by a second
    clock reading, and its result mirrors the driver's answer: success
    for [true], the "no result" failure for [false], a failure with the
    error text for a rejection. *)
Theorem start_mirrors_driver rt adv cfg sid w :
  valid (validateAdvertisingConfig cfg) = true ->
  Platform_OS rt = "android" ->
  fst (startAdvertisingWithEnhancements rt adv cfg sid w)
  = Normal (outcome_of
              (startBroadcast adv
                 (fst (advertising_message rt cfg
                         (trace w ++ [EvNow (Date_now rt (trace w))])))
                 (snd (advertising_message rt cfg
                         (trace w ++ [EvNow (Date_now rt (trace w))])))))
  /\ driver_calls (trace (snd (startAdvertisingWithEnhancements rt adv cfg sid w)))
     = (driver_calls (trace w)
        ++ [EvStartBroadcast
              (snd (advertising_message rt cfg
                      (trace w ++ [EvNow (Date_now rt (trace w))])))])%list.
Proof.
  intros Hvalid Hos.
  destruct (start_effect rt adv cfg sid w)
    as (o & pt & evs & w' & Hrun & _ & _ & _ & _ & _ & _ & Hguard).
  assert (Handroid : String.eqb "android" "android" = true) by reflexivity.
  rewrite Hvalid, Hos, Handroid in Hguard. cbn [andb] in Hguard.
  destruct Hguard as [Htr Ho].
  rewrite Hrun. cbn [fst snd]. split; [rewrite Ho; reflexivity |].
  rewrite Htr, driver_calls_app. f_equal.
  unfold advertising_message. destruct (payload cfg); cbn [fst];
    rewrite ?driver_calls_snoc_now; reflexivity.
Qed.

Lemma start_mirrors_driver_witness :
  fst (startAdvertisingWithEnhancements android_runtime broken_driver
         sample_config "session-1" new_world)
  = Normal (failed "radio unavailable").
Proof.
  apply (start_mirrors_driver android_runtime broken_driver sample_config
           "session-1" new_world); reflexivity.
Defined.

(** X7.  Whatever [start] returns is what it records: afterwards the
    session is bound to a new record with the start time read at entry,
    no stop time, duration 0, restart count 0, the success flag of the
    result and, on success only, the payload flag.  The result carries
    an error exactly when it is a failure, and the error count is 1
    exactly when that error text is not empty, so a driver error with an
    empty message is recorded with error count 0. *)
Theorem start_records_its_result rt adv cfg sid w :
  exists o m,
    fst (startAdvertisingWithEnhancements rt adv cfg sid w) = Normal o
    /\ read_through
         (metrics (snd (startAdvertisingWithEnhancements rt adv cfg sid w)))
         (snd (startAdvertisingWithEnhancements rt adv cfg sid w)) sid
       = Some m
    /\ m = recorded (Date_now rt (trace w)) o
             (if o_success o
              then Some (bool_decide (is_Some (payload cfg))) else None)
    /\ (o_success o = true <-> o_error o = None)
    /\ (errorCount m = 1 <-> exists e, o_error o = Some e /\ e <> "").
Proof.
  destruct (start_effect rt adv cfg sid w)
    as (o & pt & evs & w' & Hrun & Hh & _ & Hm & _ & _ & Hcase & _).
  exists o. eexists. rewrite Hrun. cbn [fst snd]. split; [reflexivity |].
  unfold read_through, deref. rewrite Hm, lookup_insert_eq.
  cbn [mbind option_bind]. rewrite Hh, lookup_insert_eq.
  split; [reflexivity |].
  destruct Hcase as [[-> ->] | (e & -> & ->)]; cbn.
  - split; [reflexivity |]. split; [split; reflexivity |].
    split; [discriminate | intros (e & He & _); discriminate He].
  - split; [reflexivity |]. split; [split; discriminate |].
    unfold truthy_string. destruct (String.eqb_spec e "") as [-> | Hne]; cbn.
    + split; [discriminate | intros (e' & [= <-] & H); contradiction].
    + split; [eauto | reflexivity].
Qed.

(** A rejection whose error has an empty message is a failure recorded
    with error count 0. *)
Example silent_error_not_counted :
  errorCount (recorded 1000 (outcome_of (Rejects (ErrorObject ""))) None) = 0.
Proof. reflexivity. Qed.

(** X8.  [startPaymentAdvertising] checks the platform and nothing else:
    the payload is not validated.  Off Android it returns the platform
    error without invoking the driver; on Android it invokes
    [startBroadcast] once with the serialised payload and mirrors the
    driver's answer.  Either way the session is bound to a new record of
    the result, flagged as payload transmitted on success. *)
Theorem startPayment_checks_platform_only rt adv p sid w :
  exists o,
    fst (startPaymentAdvertising rt adv p sid w) = Normal o
    /\ o = (if String.eqb (Platform_OS rt) "android"
            then outcome_of
                   (startBroadcast adv
                      (trace w ++ [EvNow (Date_now rt (trace w))])
                      (stringify_payload rt p))
            else failed MSG_PLATFORM)
    /\ driver_calls (trace (snd (startPaymentAdvertising rt adv p sid w)))
       = (driver_calls (trace w)
          ++ (if String.eqb (Platform_OS rt) "android"
              then [EvStartBroadcast (stringify_payload rt p)] else []))%list
    /\ read_through
         (metrics (snd (startPaymentAdvertising rt adv p sid w)))
         (snd (startPaymentAdvertising rt adv p sid w)) sid
       = Some (recorded (Date_now rt (trace w)) o
                 (if o_success o then Some true else None)).
Proof.
  destruct (startPayment_effect rt adv p sid w)
    as (o & pt & evs & w' & Hrun & Hh & _ & Hm & _ & Htr & Hcase & Hguard).
  exists o. rewrite Hrun. cbn [fst snd]. split; [reflexivity |].
  split; [destruct (String.eqb (Platform_OS rt) "android"); apply Hguard |].
  split.
  - rewrite Htr, driver_calls_app.
    destruct (String.eqb (Platform_OS rt) "android");
      destruct Hguard as [-> _]; reflexivity.
  - unfold read_through, deref. rewrite Hm, lookup_insert_eq.
    cbn [mbind option_bind]. rewrite Hh, lookup_insert_eq.
    destruct Hcase as [[-> ->] | (e & -> & ->)]; reflexivity.
Qed.

(** X9.  No asynchronous method of the class lets an exception of the
    driver escape: for every driver, runtime and world, each of them
    completes with a result value. *)
Theorem no_method_throws rt adv cfg p sid w :
  (exists o, fst (startAdvertisingWithEnhancements rt adv cfg sid w) = Normal o)
  /\ (exists o, fst (startPaymentAdvertising rt adv p sid w) = Normal o)
  /\ (exists o, fst (stopAdvertisingWithEnhancements rt adv sid w) = Normal o)
  /\ (exists b, fst (restartAdvertisingIfNeeded rt adv cfg sid w) = Normal b).
Proof.
  split; [|split; [|split]].
  - destruct (start_effect rt adv cfg sid w) as (o & pt & evs & w' & Hrun & _).
    rewrite Hrun. eauto.
  - destruct (startPayment_effect rt adv p sid w)
      as (o & pt & evs & w' & Hrun & _).
    rewrite Hrun. eauto.
  - rewrite stop_effect. destruct (stopBroadcast adv (trace w)); [|eauto].
    destruct (metrics w !! sid); eauto.
  - destruct (Z.lt_ge_cases (current_attempts sid w) maxRestartAttempts)
      as [Hbelow | Hreached].
    + destruct (restart_effect rt adv cfg sid w Hbelow)
        as (o & pt & evs & w' & Hrun & _).
      rewrite Hrun. eauto.
    + rewrite restart_unfold.
      destruct (Z.geb_spec (current_attempts sid w) maxRestartAttempts);
        [eauto | lia].
Qed.

(** ** Sessions do not interfere *)

Lemma read_through_rebound sid k r w w' :
  consistent w ->
  k <> sid ->
  heap w' = <[nextLoc w := r]> (heap w) ->
  metrics w' = <[sid := nextLoc w]> (metrics w) ->
  metrics w' !! k = metrics w !! k
  /\ read_through (metrics w') w' k = read_through (metrics w) w k.
Proof.
  intros Hw Hk Hh Hm.
  assert (Hlook : metrics w' !! k = metrics w !! k).
  { rewrite Hm. apply lookup_insert_ne. congruence. }
  split; [exact Hlook |].
  unfold read_through, deref. rewrite Hlook.
  destruct (metrics w !! k) as [l|] eqn:Hl; [|reflexivity].
  cbn [mbind option_bind]. rewrite Hh. apply lookup_insert_ne.
  pose proof (consistent_well_formed w Hw k l Hl). lia.
Qed.

(** X10.  A call about one session leaves every other session as it
    was: its binding, the record read through it and its restart
    counter are unchanged by [start], [startPaymentAdvertising], [stop],
    [restartIfNeeded] and [clearMetrics] on a different session id. *)
Theorem calls_leave_other_sessions_alone rt w c sid k :
  consistent w ->
  call_session c = Some sid ->
  k <> sid ->
  metrics (perform rt w c) !! k = metrics w !! k
  /\ read_through (metrics (perform rt w c)) (perform rt w c) k
     = read_through (metrics w) w k
  /\ restartAttempts (perform rt w c) !! k = restartAttempts w !! k.
Proof.
  intros Hw Hc Hk.
  destruct c as [adv cfg s | adv p s | adv s | adv cfg s | s |];
    cbn [call_session] in Hc; try discriminate Hc; injection Hc as ->;
    cbn [perform].
  - destruct (start_effect rt adv cfg sid w)
      as (o & pt & evs & w' & Hrun & Hh & _ & Hm & Ha & _).
    rewrite Hrun. cbn [snd]. rewrite Ha.
    destruct (read_through_rebound sid k _ w w' Hw Hk Hh Hm). auto.
  - destruct (startPayment_effect rt adv p sid w)
      as (o & pt & evs & w' & Hrun & Hh & _ & Hm & Ha & _).
    rewrite Hrun. cbn [snd]. rewrite Ha.
    destruct (read_through_rebound sid k _ w w' Hw Hk Hh Hm). auto.
  - rewrite stop_effect.
    destruct (stopBroadcast adv (trace w)) as [b|e]; [|auto].
    destruct (metrics w !! sid) as [l0|] eqn:Hsid; cbn [snd metrics restartAttempts].
    + split; [reflexivity |]. split; [|apply lookup_delete_ne; congruence].
      unfold read_through, deref. cbn [heap].
      destruct (metrics w !! k) as [l|] eqn:Hl; [|reflexivity].
      cbn [mbind option_bind]. apply lookup_alter_ne.
      intros ->. destruct Hw as (_ & Hinj & _). apply Hk.
      exact (Hinj k sid l Hl Hsid).
    + split; [reflexivity |]. split; [reflexivity |].
      apply lookup_delete_ne. congruence.
  - destruct (Z.lt_ge_cases (current_attempts sid w) maxRestartAttempts)
      as [Hbelow | Hreached].
    + destruct (restart_effect rt adv cfg sid w Hbelow)
        as (o & pt & evs & w' & Hrun & Hh & _ & Hm & Ha & _).
      rewrite Hrun. cbn [snd]. rewrite Ha.
      destruct (read_through_rebound sid k _ w w' Hw Hk Hh Hm).
      split; [assumption |]. split; [assumption |].
      apply lookup_insert_ne. congruence.
    + rewrite restart_unfold.
      destruct (Z.geb_spec (current_attempts sid w) maxRestartAttempts);
        [auto | lia].
  - unfold clearMetrics, modify. cbn [snd]. world_simpl.
    assert (Hlook : delete sid (metrics w) !! k = metrics w !! k)
      by (apply lookup_delete_ne; congruence).
    split; [exact Hlook |]. split; [|apply lookup_delete_ne; congruence].
    unfold read_through, deref. rewrite Hlook. reflexivity.
Qed.

Lemma consistent_advertising : consistent advertising_world.
Proof. apply consistent_start, consistent_new. Qed.

Lemma consistent_two_sessions : consistent two_sessions_world.
Proof. apply consistent_start, consistent_advertising. Qed.

Lemma calls_leave_other_sessions_alone_witness :
  read_through
    (metrics (perform android_runtime two_sessions_world
                (CallStop willing_driver "session-2")))
    (perform android_runtime two_sessions_world
       (CallStop willing_driver "session-2")) "session-1"
  = read_through (metrics two_sessions_world) two_sessions_world "session-1".
Proof.
  apply (calls_leave_other_sessions_alone android_runtime two_sessions_world
           (CallStop willing_driver "session-2") "session-2" "session-1").
  - exact consistent_two_sessions.
  - reflexivity.
  - discriminate.
Defined.

(** ** Further properties of [stop] and [clearMetrics] *)

(** X11.  [stop] for a session without a record: when [stopBroadcast]
    does not throw, the result is a success, the clock is not read, the
    store and its records are untouched, and only the restart counter of
    that id is dropped. *)
Theorem stop_without_record rt adv sid w b :
  metrics w !! sid = None ->
  stopBroadcast adv (trace w) = Resolves b ->
  fst (stopAdvertisingWithEnhancements rt adv sid w) = Normal succeeded
  /\ heap (snd (stopAdvertisingWithEnhancements rt adv sid w)) = heap w
  /\ metrics (snd (stopAdvertisingWithEnhancements rt adv sid w)) = metrics w
  /\ trace (snd (stopAdvertisingWithEnhancements rt adv sid w))
     = (trace w ++ [EvStopBroadcast])%list
  /\ restartAttempts (snd (stopAdvertisingWithEnhancements rt adv sid w))
     = delete sid (restartAttempts w).
Proof.
  intros Hnone Hdrv. rewrite stop_effect, Hdrv, Hnone. cbn. auto.
Qed.

Lemma stop_without_record_witness :
  fst (stopAdvertisingWithEnhancements android_runtime willing_driver
         "session-9" advertising_world) = Normal succeeded
  /\ heap (snd (stopAdvertisingWithEnhancements android_runtime willing_driver
                  "session-9" advertising_world)) = heap advertising_world.
Proof.
  destruct (stop_without_record android_runtime willing_driver "session-9"
              advertising_world true) as (H1 & H2 & _);
    [vm_compute; reflexivity | reflexivity |].
  split; [exact H1 | exact H2].
Defined.

(** X12.  A session started and then stopped: when [stopBroadcast] does
    not throw, the record of the session keeps the start time read at
    the entry of [start], gets the stop time read after the driver
    answered, and its duration is exactly their difference; with a clock
    that never runs backwards the duration is not negative. *)
Theorem stop_after_start_measures_duration rt adv adv' cfg sid w b :
  stopBroadcast adv'
    (trace (snd (startAdvertisingWithEnhancements rt adv cfg sid w)))
  = Resolves b ->
  exists m,
    read_through
      (metrics (snd (stopAdvertisingWithEnhancements rt adv' sid
                       (snd (startAdvertisingWithEnhancements rt adv cfg sid w)))))
      (snd (stopAdvertisingWithEnhancements rt adv' sid
              (snd (startAdvertisingWithEnhancements rt adv cfg sid w)))) sid
    = Some m
    /\ startTime m = Date_now rt (trace w)
    /\ stopTime m
       = Some (Date_now rt
                 (trace (snd (startAdvertisingWithEnhancements rt adv cfg sid w))
                  ++ [EvStopBroadcast]))
    /\ duration m
       = Date_now rt
           (trace (snd (startAdvertisingWithEnhancements rt adv cfg sid w))
            ++ [EvStopBroadcast])
         - Date_now rt (trace w)
    /\ (monotone_clock rt -> 0 <= duration m).
Proof.
  destruct (start_effect rt adv cfg sid w)
    as (o & pt & evs & w1 & Hrun & Hh & _ & Hm & _ & Htr & _).
  rewrite Hrun. cbn [snd]. intros Hdrv.
  rewrite stop_effect, Hdrv, Hm, lookup_insert_eq. cbn [snd metrics heap].
  unfold read_through, deref. rewrite lookup_insert_eq.
  cbn [mbind option_bind heap]. rewrite lookup_alter_eq, Hh, lookup_insert_eq.
  eexists. split; [reflexivity |]. cbn.
  repeat split; try reflexivity.
  intros Hclock. rewrite Htr, <- app_assoc.
  pose proof (Hclock (trace w)
                ((EvNow (Date_now rt (trace w)) :: evs) ++ [EvStopBroadcast])%list).
  lia.
Qed.

Lemma sample_clock_monotone : monotone_clock android_runtime.
Proof.
  intros tr evs. cbn [Date_now android_runtime]. unfold sample_clock.
  rewrite length_app. lia.
Qed.

Lemma stop_after_start_measures_duration_witness :
  exists m,
    read_through (metrics stopped_world) stopped_world "session-1" = Some m
    /\ duration m = 200
    /\ 0 <= duration m.
Proof.
  destruct (stop_after_start_measures_duration android_runtime willing_driver
              willing_driver sample_config "session-1" new_world true eq_refl)
    as (m & Hread & _ & _ & Hd & Hpos).
  exists m. split; [exact Hread |]. split; [exact Hd |].
  exact (Hpos sample_clock_monotone).
Defined.

(** X13.  [clearMetrics] forgets a session and nothing else: afterwards
    the session has no record and its restart count reads 0; the records
    on the heap and the trace are untouched; clearing again changes
    nothing; and clearing an id that has neither record nor counter
    leaves the world as it was. *)
Theorem clearMetrics_forgets_the_session sid w :
  getAdvertisingMetrics sid (snd (clearMetrics sid w)) = None
  /\ current_attempts sid (snd (clearMetrics sid w)) = 0
  /\ heap (snd (clearMetrics sid w)) = heap w
  /\ trace (snd (clearMetrics sid w)) = trace w
  /\ snd (clearMetrics sid (snd (clearMetrics sid w))) = snd (clearMetrics sid w)
  /\ (metrics w !! sid = None -> restartAttempts w !! sid = None ->
      snd (clearMetrics sid w) = w).
Proof.
  unfold clearMetrics, modify, getAdvertisingMetrics, current_attempts.
  world_simpl. rewrite !lookup_delete_eq.
  split; [reflexivity |]. split; [reflexivity |].
  split; [reflexivity |]. split; [reflexivity |]. split.
  - unfold set_restartAttempts, set_metrics. world_simpl.
    rewrite !delete_delete_eq. reflexivity.
  - intros Hm Ha. destruct w as [h n m r t].
    unfold set_restartAttempts, set_metrics. world_simpl.
    cbn [metrics restartAttempts] in Hm, Ha.
    rewrite (delete_id m sid Hm), (delete_id r sid Ha). reflexivity.
Qed.

Lemma clearMetrics_forgets_the_session_witness :
  snd (clearMetrics "session-9" advertising_world) = advertising_world.
Proof.
  apply (clearMetrics_forgets_the_session "session-9" advertising_world);
    vm_compute; reflexivity.
Defined.

(** ** Further properties of [restartIfNeeded] *)

(** X14.  A [stop] whose driver call does not throw gives the session
    its restart budget back: the count reads 0 afterwards, so the next
    [restartIfNeeded] does not refuse, whatever the count was before; it
    counts 1, waits 2000 ms and runs [start] in the world so reached,
    leaving the world that [start] leaves (with the restart count of the
    record raised on success) and answering with its success flag. *)
Theorem stop_restores_restart_budget rt adv adv' cfg sid w b :
  stopBroadcast adv (trace w) = Resolves b ->
  current_attempts sid (snd (stopAdvertisingWithEnhancements rt adv sid w)) = 0
  /\ restartAttempts
       (snd (restartAdvertisingIfNeeded rt adv' cfg sid
               (snd (stopAdvertisingWithEnhancements rt adv sid w)))) !! sid
     = Some 1
  /\ exists o w2 evs,
       startAdvertisingWithEnhancements rt adv' cfg sid
         {| heap := heap (snd (stopAdvertisingWithEnhancements rt adv sid w));
            nextLoc := nextLoc (snd (stopAdvertisingWithEnhancements rt adv sid w));
            metrics := metrics (snd (stopAdvertisingWithEnhancements rt adv sid w));
            restartAttempts :=
              <[sid := 1]>
                (restartAttempts
                   (snd (stopAdvertisingWithEnhancements rt adv sid w)));
            trace :=
              trace (snd (stopAdvertisingWithEnhancements rt adv sid w))
              ++ [EvTimeout 2000] |}
         = (Normal o, w2)
       /\ restartAdvertisingIfNeeded rt adv' cfg sid
            (snd (stopAdvertisingWithEnhancements rt adv sid w))
          = (Normal (o_success o),
             if o_success o then
               match metrics w2 !! sid with
               | Some l => set_heap (alter increment_restart l (heap w2)) w2
               | None => w2
               end
             else w2)
       /\ trace (snd (restartAdvertisingIfNeeded rt adv' cfg sid
                        (snd (stopAdvertisingWithEnhancements rt adv sid w))))
          = (trace (snd (stopAdvertisingWithEnhancements rt adv sid w))
             ++ EvTimeout 2000
                :: EvNow (Date_now rt
                            (trace (snd (stopAdvertisingWithEnhancements
                                           rt adv sid w))
                             ++ [EvTimeout 2000]))
                :: evs)%list.
Proof.
  intros Hdrv.
  assert (Hzero : current_attempts sid
                    (snd (stopAdvertisingWithEnhancements rt adv sid w)) = 0).
  { rewrite stop_effect, Hdrv. unfold current_attempts.
    destruct (metrics w !! sid); cbn [snd restartAttempts];
      rewrite lookup_delete_eq; reflexivity. }
  split; [exact Hzero |].
  set (w1 := snd (stopAdvertisingWithEnhancements rt adv sid w)) in *.
  assert (Hbelow : current_attempts sid w1 < maxRestartAttempts)
    by (rewrite Hzero; reflexivity).
  destruct (restart_attempt_full rt adv' cfg sid w1 Hbelow)
    as (o & pt & evs & w2 & Hstart & Hrun & Htr & _ & Hatt & Hmet & _).
  unfold after_backoff, restartDelay in Hstart. rewrite Hzero in Hstart, Hatt.
  rewrite Hrun. cbn [snd].
  assert (Hsame : trace (if o_success o
                         then match metrics w2 !! sid with
                              | Some l =>
                                  set_heap (alter increment_restart l (heap w2)) w2
                              | None => w2
                              end
                         else w2) = trace w2
                  /\ restartAttempts
                       (if o_success o
                        then match metrics w2 !! sid with
                             | Some l =>
                                 set_heap (alter increment_restart l (heap w2)) w2
                             | None => w2
                             end
                        else w2) = restartAttempts w2).
  { destruct (o_success o); [destruct (metrics w2 !! sid) |]; split; reflexivity. }
  destruct Hsame as [Htrace Hcount]. rewrite Hcount, Hatt, lookup_insert_eq.
  split; [reflexivity |].
  exists o, w2, evs. split; [exact Hstart |]. split; [reflexivity |].
  rewrite Htrace. exact Htr.
Qed.

Lemma stop_restores_restart_budget_witness :
  current_attempts "session-1" exhausted_world = 3
  /\ restartAttempts
       (snd (restartAdvertisingIfNeeded android_runtime willing_driver
               sample_config "session-1"
               (snd (stopAdvertisingWithEnhancements android_runtime
                       willing_driver "session-1" exhausted_world))))
       !! "session-1" = Some 1.
Proof.
  split; [vm_compute; reflexivity |].
  apply (stop_restores_restart_budget android_runtime willing_driver
           willing_driver sample_config "session-1" exhausted_world true).
  reflexivity.
Defined.

(** X15.  A restart that cannot succeed still spends the budget: with an
    invalid config, or on a platform other than Android, a call below
    the maximum raises the counter by one, waits the 2000 ms, reads the
    clock once and returns [false] without ever invoking the driver. *)
Theorem restart_counts_permanent_failures rt adv cfg sid w :
  current_attempts sid w < 3 ->
  valid (validateAdvertisingConfig cfg) = false \/ Platform_OS rt <> "android" ->
  fst (restartAdvertisingIfNeeded rt adv cfg sid w) = Normal false
  /\ restartAttempts (snd (restartAdvertisingIfNeeded rt adv cfg sid w)) !! sid
     = Some (current_attempts sid w + 1)
  /\ trace (snd (restartAdvertisingIfNeeded rt adv cfg sid w))
     = (trace w
        ++ [EvTimeout 2000; EvNow (Date_now rt (trace w ++ [EvTimeout 2000]))])%list
  /\ driver_calls (trace (snd (restartAdvertisingIfNeeded rt adv cfg sid w)))
     = driver_calls (trace w).
Proof.
  intros Hbelow Hperm.
  destruct (restart_effect rt adv cfg sid w Hbelow)
    as (o & pt & evs & w' & Hrun & _ & _ & _ & Ha & Htr & _ & Hevs).
  assert (Hoff : valid (validateAdvertisingConfig cfg)
                 && String.eqb (Platform_OS rt) "android" = false).
  { destruct Hperm as [-> | Hos]; [reflexivity |].
    apply String.eqb_neq in Hos. rewrite Hos. apply andb_false_r. }
  specialize (Hevs Hoff). subst evs.
  destruct (start_effect rt adv cfg sid (after_backoff sid w))
    as (o' & pt' & evs' & w2 & Hstart & _ & _ & _ & _ & _ & _ & Hguard).
  rewrite Hoff in Hguard. destruct Hguard as [_ Ho'].
  assert (Hfalse : o_success o = false).
  { rewrite restart_unfold in Hrun.
    destruct (Z.geb_spec (current_attempts sid w) maxRestartAttempts) as [Hge|_];
      [unfold maxRestartAttempts in Hge; lia |].
    rewrite Hstart, Ho' in Hrun. cbn [o_success failed] in Hrun.
    injection Hrun as Hrun _. symmetry. exact Hrun. }
  rewrite Hrun, Hfalse. cbn [fst snd].
  split; [reflexivity |]. split; [rewrite Ha; apply lookup_insert_eq |].
  assert (Htrace : trace w'
    = (trace w
       ++ [EvTimeout 2000; EvNow (Date_now rt (trace w ++ [EvTimeout 2000]))])%list).
  { rewrite Htr. unfold after_backoff, restartDelay.
    cbn [trace log_event set_restartAttempts]. rewrite <- app_assoc. reflexivity. }
  split; [exact Htrace |]. rewrite Htrace, driver_calls_app. apply app_nil_r.
Qed.

Lemma restart_counts_permanent_failures_witness :
  fst (restartAdvertisingIfNeeded ios_runtime willing_driver sample_config
         "session-1" new_world) = Normal false
  /\ restartAttempts
       (snd (restartAdvertisingIfNeeded ios_runtime willing_driver sample_config
               "session-1" new_world)) !! "session-1" = Some 1.
Proof.
  destruct (restart_counts_permanent_failures ios_runtime willing_driver
              sample_config "session-1" new_world) as (H1 & H2 & _).
  - reflexivity.
  - right. discriminate.
  - split; [exact H1 | exact H2].
Defined.

(** X16.  Restarts are not accumulated in the record: a restart that
    succeeds leaves the session with a new record whose restart count is
    exactly 1, whatever the restart count of its previous record was,
    because the [start] inside it has replaced that record. *)
Theorem successful_restart_counts_once rt adv cfg sid w :
  current_attempts sid w < 3 ->
  valid (validateAdvertisingConfig cfg) = true ->
  Platform_OS rt = "android" ->
  always_succeeds adv ->
  fst (restartAdvertisingIfNeeded rt adv cfg sid w) = Normal true
  /\ exists m,
       read_through (metrics (snd (restartAdvertisingIfNeeded rt adv cfg sid w)))
         (snd (restartAdvertisingIfNeeded rt adv cfg sid w)) sid = Some m
       /\ restartCount m = 1
       /\ success m = true
       /\ stopTime m = None.
Proof.
  intros Hbelow Hvalid Hos Hadv.
  destruct (restart_effect rt adv cfg sid w Hbelow)
    as (o & pt & evs & w' & Hrun & Hh & _ & Hm & _ & _ & _ & _).
  destruct (start_effect rt adv cfg sid (after_backoff sid w))
    as (o' & pt' & evs' & w2 & Hstart & _ & _ & _ & _ & _ & _ & Hguard).
  assert (Handroid : String.eqb "android" "android" = true) by reflexivity.
  rewrite Hvalid, Hos, Handroid in Hguard. cbn [andb] in Hguard.
  destruct Hguard as [_ Ho']. rewrite Hadv in Ho'. cbn [outcome_of] in Ho'.
  assert (Ho : o_success o = true).
  { rewrite restart_unfold in Hrun.
    destruct (Z.geb_spec (current_attempts sid w) maxRestartAttempts) as [Hge|_];
      [unfold maxRestartAttempts in Hge; lia |].
    rewrite Hstart, Ho' in Hrun. cbn [o_success succeeded] in Hrun.
    destruct (metrics w2 !! sid); injection Hrun as Hrun _;
      symmetry; exact Hrun. }
  rewrite Hrun, Ho. cbn [fst snd]. split; [reflexivity |].
  unfold read_through, deref. rewrite Hm, lookup_insert_eq.
  cbn [mbind option_bind]. rewrite Hh, lookup_insert_eq, Ho.
  eexists. split; [reflexivity |]. cbn. rewrite Ho. auto.
Qed.

Lemma willing_driver_always_succeeds : always_succeeds willing_driver.
Proof. intros tr data. reflexivity. Defined.

Lemma successful_restart_counts_once_witness :
  fst (restartAdvertisingIfNeeded android_runtime willing_driver sample_config
         "session-1"
         (snd (restartAdvertisingIfNeeded android_runtime willing_driver
                 sample_config "session-1" advertising_world)))
  = Normal true.
Proof.
  apply (successful_restart_counts_once android_runtime willing_driver
           sample_config "session-1"
           (snd (restartAdvertisingIfNeeded android_runtime willing_driver
                   sample_config "session-1" advertising_world))).
  - vm_compute. reflexivity.
  - reflexivity.
  - reflexivity.
  - exact willing_driver_always_succeeds.
Defined.

(** ** What holds after any sequence of calls *)

(** X17.  After any sequence of calls on a new instance, with any
    drivers: every session is bound to a record of its own; in every
    such record the error count and the restart count are 0 or 1, a
    success has error count 0, a failure has restart count 0 and no
    payload flag, and the duration is 0 before any stop and stop time
    minus start time after one; and every restart counter is between 1
    and 3, so the count [restartIfNeeded] reads is between 0 and 3. *)
Theorem reachable_instance_is_consistent rt calls :
  (forall sid l,
     getAdvertisingMetrics sid (run_calls rt calls new_world) = Some l ->
     exists m, deref (run_calls rt calls new_world) l = Some m /\ record_sane m)
  /\ (forall sid sid' l,
        getAdvertisingMetrics sid (run_calls rt calls new_world) = Some l ->
        getAdvertisingMetrics sid' (run_calls rt calls new_world) = Some l ->
        sid = sid')
  /\ (forall sid n,
        restartAttempts (run_calls rt calls new_world) !! sid = Some n ->
        1 <= n <= 3)
  /\ (forall sid, 0 <= current_attempts sid (run_calls rt calls new_world) <= 3).
Proof.
  pose proof (consistent_run rt calls new_world consistent_new) as Hw.
  pose proof Hw as (Hlive & Hinj & Hheap & Hatt).
  unfold getAdvertisingMetrics, deref.
  split; [|split; [exact Hinj | split; [exact Hatt |]]].
  - intros sid l Hl. destruct (Hlive sid l Hl) as [m Hm].
    exists m. split; [exact Hm | exact (proj2 (Hheap l m Hm))].
  - intros sid. apply current_attempts_range, Hw.
Qed.

Lemma reachable_instance_is_consistent_witness :
  exists m,
    deref (run_calls android_runtime
             [CallStart willing_driver sample_config "session-1";
              CallRestart willing_driver sample_config "session-1";
              CallStop willing_driver "session-1"] new_world) 1%nat = Some m
    /\ record_sane m.
Proof.
  apply (reachable_instance_is_consistent android_runtime
           [CallStart willing_driver sample_config "session-1";
            CallRestart willing_driver sample_config "session-1";
            CallStop willing_driver "session-1"]) with (sid := "session-1").
  vm_compute. reflexivity.
Defined.

Lemma length_omap_deref w (ls : list loc) :
  Forall (fun l => is_Some (heap w !! l)) ls ->
  length (omap (deref w) ls) = length ls.
Proof.
  induction 1 as [|l rest [m Hm] _ IH]; [reflexivity |].
  cbn [omap list_omap]. unfold deref at 1. rewrite Hm.
  cbn [length]. f_equal. exact IH.
Qed.

Lemma sessions_of_length w :
  consistent w -> length (sessions_of w) = size (metrics w).
Proof.
  intros (Hlive & _). unfold sessions_of.
  rewrite length_omap_deref, length_fmap; [apply length_map_to_list |].
  apply Forall_fmap, Forall_forall. intros [k l] Hin.
  apply elem_of_map_to_list in Hin. exact (Hlive k l Hin).
Qed.

Lemma sessions_of_sane w :
  consistent w -> Forall record_sane (sessions_of w).
Proof.
  intros (_ & _ & Hheap & _). unfold sessions_of.
  induction (snd <$> map_to_list (metrics w)) as [|l rest IH];
    [constructor |].
  cbn [omap list_omap]. unfold deref at 1.
  destruct (heap w !! l) as [m|] eqn:Hm; [|exact IH].
  constructor; [exact (proj2 (Hheap l m Hm)) | exact IH].
Qed.

Lemma foldl_sum_shift {A} (f : A -> Z) (l : list A) (acc : Z) :
  foldl (fun sum s => sum + f s) acc l = acc + foldl (fun sum s => sum + f s) 0 l.
Proof.
  revert acc. induction l as [|x l IH]; intros acc; cbn [foldl]; [lia |].
  rewrite (IH (acc + f x)), (IH (0 + f x)). lia.
Qed.

(** The aggregates of [getAdvertisingStatistics] over an array of sane
    records. *)
Lemma aggregates_of_sane (l : list AdvertisingMetrics) :
  Forall record_sane l ->
  array_length l
  = array_length (filter (fun s => success s = true) l)
    + array_length (filter (fun s => negb (success s) = true) l)
  /\ array_length (filter (fun s => truthy_opt_bool (payloadTransmitted s) = true) l)
     <= array_length (filter (fun s => success s = true) l)
  /\ 0 <= foldl (fun sum s => sum + restartCount s) 0 l
       <= array_length (filter (fun s => success s = true) l).
Proof.
  unfold array_length.
  induction 1 as [|m l (_ & Hr & _ & Hf & _) _ IH]; [cbn; lia |].
  rewrite !filter_cons. cbn [foldl]. rewrite foldl_sum_shift.
  destruct (success m) eqn:Hs.
  - repeat case_decide; try discriminate; try congruence;
      cbn [length negb] in *; destruct Hr as [-> | ->]; lia.
  - destruct (Hf eq_refl) as [-> Hp]. rewrite Hp.
    repeat case_decide; try discriminate; try congruence;
      cbn [length negb] in *; lia.
Qed.

(** X18.  After any sequence of calls on a new instance the statistics
    add up: the total is the number of sessions in the store and the sum
    of the successful and the failed ones; payload transmissions and
    total restarts are each between 0 and the number of successful
    sessions; and the average duration is a finite number. *)
Theorem reachable_statistics_add_up rt calls :
  totalSessions (getAdvertisingStatistics (run_calls rt calls new_world))
  = Z.of_nat (size (metrics (run_calls rt calls new_world)))
  /\ totalSessions (getAdvertisingStatistics (run_calls rt calls new_world))
     = successfulSessions (getAdvertisingStatistics (run_calls rt calls new_world))
       + failedSessions (getAdvertisingStatistics (run_calls rt calls new_world))
  /\ 0 <= payloadTransmissions
            (getAdvertisingStatistics (run_calls rt calls new_world))
       <= successfulSessions
            (getAdvertisingStatistics (run_calls rt calls new_world))
  /\ 0 <= totalRestarts (getAdvertisingStatistics (run_calls rt calls new_world))
       <= successfulSessions
            (getAdvertisingStatistics (run_calls rt calls new_world))
  /\ exists q,
       averageDuration (getAdvertisingStatistics (run_calls rt calls new_world))
       = Finite q.
Proof.
  pose proof (consistent_run rt calls new_world consistent_new) as Hw.
  set (w := run_calls rt calls new_world) in *.
  pose proof (sessions_of_length w Hw) as Hlen.
  destruct (aggregates_of_sane (sessions_of w) (sessions_of_sane w Hw))
    as (Hsum & Hpay & Hres).
  unfold getAdvertisingStatistics.
  cbn [totalSessions successfulSessions failedSessions payloadTransmissions
       totalRestarts averageDuration].
  split; [unfold array_length; rewrite Hlen; reflexivity |].
  split; [exact Hsum |].
  split; [split; [unfold array_length; lia | exact Hpay] |].
  split; [exact Hres |].
  destruct (Z.gtb_spec (array_length (sessions_of w)) 0) as [Hpos|_]; [|eauto].
  unfold js_div.
  destruct (Z.eqb_spec (array_length (sessions_of w)) 0); [lia |].
  destruct (Z.ltb_spec 0 (array_length (sessions_of w))); [eauto | lia].
Qed.

(** ** From the builder to the driver *)

Lemma payment_config_accepted stringify name uuid p :
  name <> "" -> uuid_shape uuid -> walletAddress p <> "" -> timestamp p <> 0 ->
  valid (validateAdvertisingConfig
           (createPaymentAdvertisingConfig stringify name uuid p)) = true.
Proof.
  intros Hname Huuid Hwallet Hstamp. apply valid_true_iff.
  apply isValidUUID_shape in Huuid.
  assert (Hu : String.eqb uuid "" = false).
  { apply String.eqb_neq. intros ->. discriminate Huuid. }
  apply String.eqb_neq in Hname, Hwallet. apply Z.eqb_neq in Hstamp.
  unfold failed_checks, checks, createPaymentAdvertisingConfig.
  cbn [List.filter fst snd deviceName serviceUUID txPowerLevel advertiseMode
       interval payload].
  simplify_checks.
  rewrite Hname, Hu, Huuid, Hwallet, Hstamp. reflexivity.
Qed.

(** X19.  A payment config built by [createPaymentAdvertisingConfig]
    from a non-empty device name, a service id of the UUID shape and a
    payload with a wallet address and a timestamp goes all the way
    through: on Android, with a driver that accepts, [start] hands the
    driver the serialised payload, once, returns success and records the
    session as a success with the payload transmitted. *)
Theorem built_payment_config_advertises rt adv name uuid p sid w :
  name <> "" -> uuid_shape uuid -> walletAddress p <> "" -> timestamp p <> 0 ->
  Platform_OS rt = "android" ->
  always_succeeds adv ->
  fst (startAdvertisingWithEnhancements rt adv
         (createPaymentAdvertisingConfig (stringify_payload rt) name uuid p)
         sid w) = Normal succeeded
  /\ driver_calls
       (trace (snd (startAdvertisingWithEnhancements rt adv
                      (createPaymentAdvertisingConfig (stringify_payload rt)
                         name uuid p) sid w)))
     = (driver_calls (trace w) ++ [EvStartBroadcast (stringify_payload rt p)])%list
  /\ read_through
       (metrics (snd (startAdvertisingWithEnhancements rt adv
                        (createPaymentAdvertisingConfig (stringify_payload rt)
                           name uuid p) sid w)))
       (snd (startAdvertisingWithEnhancements rt adv
               (createPaymentAdvertisingConfig (stringify_payload rt)
                  name uuid p) sid w)) sid
     = Some (recorded (Date_now rt (trace w)) succeeded (Some true)).
Proof.
  intros Hname Huuid Hwallet Hstamp Hos Hadv.
  pose proof (payment_config_accepted (stringify_payload rt) name uuid p
                Hname Huuid Hwallet Hstamp) as Hvalid.
  destruct (start_effect rt adv
              (createPaymentAdvertisingConfig (stringify_payload rt) name uuid p)
              sid w)
    as (o & pt & evs & w' & Hrun & Hh & _ & Hm & _ & _ & Hcase & Hguard).
  assert (Handroid : String.eqb "android" "android" = true) by reflexivity.
  rewrite Hvalid, Hos, Handroid in Hguard. cbn [andb] in Hguard.
  unfold advertising_message in Hguard.
  cbn [payload createPaymentAdvertisingConfig fst snd] in Hguard.
  destruct Hguard as [Htr Ho]. rewrite Hadv in Ho. cbn [outcome_of] in Ho.
  subst o. rewrite Hrun. cbn [fst snd]. split; [reflexivity |].
  split.
  - rewrite Htr, driver_calls_app, driver_calls_snoc_now. reflexivity.
  - unfold read_through, deref. rewrite Hm, lookup_insert_eq.
    cbn [mbind option_bind]. rewrite Hh, lookup_insert_eq.
    destruct Hcase as [[_ ->] | (e & He & _)]; [reflexivity | discriminate He].
Qed.

Lemma built_payment_config_advertises_witness :
  fst (startAdvertisingWithEnhancements android_runtime willing_driver
         (createPaymentAdvertisingConfig (stringify_payload android_runtime)
            "Alice-Phone" sample_uuid sample_payload)
         "session-1" new_world) = Normal succeeded.
Proof.
  apply (built_payment_config_advertises android_runtime willing_driver
           "Alice-Phone" sample_uuid sample_payload "session-1" new_world).
  - discriminate.
  - apply isValidUUID_shape. reflexivity.
  - discriminate.
  - discriminate.
  - reflexivity.
  - exact willing_driver_always_succeeds.
Defined.
